(** * Markwaydown: the line-driven markdown-to-HTML state machine

    A shallow embedding of [parser.py] (class [Parser] with its [State] and
    [Transition] enumerations) and the properties its specification states
    about it.

    Python strings are sequences of Unicode code points; a character is
    modelled by its code point, a [str] by the list of its characters.  The
    parser object is a record, its methods are computations in a small
    state-and-exception monad: a method may mutate the object and may raise,
    and what it mutated before raising stays mutated. *)

From Stdlib Require Import List NArith Bool Arith Lia.
From Stdlib Require String Ascii DecimalString.
Import ListNotations.
Import String.StringSyntax.
Delimit Scope string_scope with string.

Set Implicit Arguments.

(* ================================================================== *)
(** ** The Python built-ins the parser relies on *)

Module Py.

Definition char := N.
Definition str := list char.

(** An ASCII literal of the source, as a [str]. *)
Definition lit (s : String.string) : str :=
  map Ascii.N_of_ascii (String.list_ascii_of_string s).
Arguments lit s%_string.

(** The one-character string written [\n] in the source. *)
Definition nl : str := [10%N].

Definition in_range (c : char) (r : N * N) : bool :=
  (fst r <=? c)%N && (c <=? snd r)%N.

Definition in_ranges (rs : list (N * N)) (c : char) : bool :=
  existsb (in_range c) rs.

(** [str.isspace] on one character, which is also what [str.split()]
    treats as a separator. *)
Definition isspace_ranges : list (N * N) :=
  [ (9, 13); (28, 32); (133, 133); (160, 160); (5760, 5760);
    (8192, 8202); (8232, 8233); (8239, 8239); (8287, 8287);
    (12288, 12288) ]%N.

Definition isspace : char -> bool := in_ranges isspace_ranges.

(** [str.isdigit] on one character: the code points whose Unicode
    Numeric_Type is Decimal or Digit (Unicode 14 table, the one of
    CPython 3.11).  The ASCII digits are the first range only. *)
Definition isdigit_ranges : list (N * N) :=
  [ (48, 57); (178, 179); (185, 185); (1632, 1641); (1776, 1785);
    (1984, 1993); (2406, 2415); (2534, 2543); (2662, 2671); (2790, 2799);
    (2918, 2927); (3046, 3055); (3174, 3183); (3302, 3311); (3430, 3439);
    (3558, 3567); (3664, 3673); (3792, 3801); (3872, 3881); (4160, 4169);
    (4240, 4249); (4969, 4977); (6112, 6121); (6160, 6169); (6470, 6479);
    (6608, 6618); (6784, 6793); (6800, 6809); (6992, 7001); (7088, 7097);
    (7232, 7241); (7248, 7257); (8304, 8304); (8308, 8313); (8320, 8329);
    (9312, 9320); (9332, 9340); (9352, 9360); (9450, 9450); (9461, 9469);
    (9471, 9471); (10102, 10110); (10112, 10120); (10122, 10130);
    (42528, 42537); (43216, 43225); (43264, 43273); (43472, 43481);
    (43504, 43513); (43600, 43609); (44016, 44025); (65296, 65305);
    (66720, 66729); (68160, 68163); (68912, 68921); (69216, 69224);
    (69714, 69722); (69734, 69743); (69872, 69881); (69942, 69951);
    (70096, 70105); (70384, 70393); (70736, 70745); (70864, 70873);
    (71248, 71257); (71360, 71369); (71472, 71481); (71904, 71913);
    (72016, 72025); (72784, 72793); (73040, 73049); (73120, 73129);
    (92768, 92777); (92864, 92873); (93008, 93017); (120782, 120831);
    (123200, 123209); (123632, 123641); (125264, 125273);
    (127232, 127242); (130032, 130041) ]%N.

Definition isdigit : char -> bool := in_ranges isdigit_ranges.

(** [line.split()]: the maximal runs of non-whitespace characters, in
    order.  [word] holds the current run, most recent character first. *)
Fixpoint split_from (word : str) (s : str) : list str :=
  match s with
  | [] => match word with [] => [] | _ => [rev word] end
  | c :: rest =>
      if isspace c
      then match word with
           | [] => split_from [] rest
           | _ => rev word :: split_from [] rest
           end
      else split_from (c :: word) rest
  end.

Definition split (s : str) : list str := split_from [] s.

(** [sep.join(parts)]. *)
Fixpoint join (sep : str) (parts : list str) : str :=
  match parts with
  | [] => []
  | [p] => p
  | p :: ps => p ++ sep ++ join sep ps
  end.

(** ["{}".format(n)] for a non-negative integer: its decimal digits. *)
Definition format_int (n : nat) : str :=
  lit (DecimalString.NilEmpty.string_of_uint (Nat.to_uint n)).

(** The exceptions that indexing can raise. *)
Inductive exn : Type := IndexError | KeyError.

Inductive result (A : Type) : Type :=
| Ok (a : A)
| Raise (e : exn).
Arguments Raise {A} e.

(** [seq[i]] for a non-negative [i], on a list or on a string. *)
Definition getitem {A : Type} (seq : list A) (i : nat) : result A :=
  match nth_error seq i with
  | Some x => Ok x
  | None => Raise IndexError
  end.

(** A dict literal, as the list of its entries in source order, and
    [d[k]], which raises [KeyError] on a missing key. *)
Fixpoint dict_lookup {K V : Type} (eqb : K -> K -> bool)
         (d : list (K * V)) (k : K) : option V :=
  match d with
  | [] => None
  | (k', v) :: d' => if eqb k' k then Some v else dict_lookup eqb d' k
  end.

Definition dict_getitem {K V : Type} (eqb : K -> K -> bool)
           (d : list (K * V)) (k : K) : result V :=
  match dict_lookup eqb d k with
  | Some v => Ok v
  | None => Raise KeyError
  end.

End Py.
Import Py.

(* ================================================================== *)
(** ** The enumerations *)

(** Enumerates the possible states the Parser can be in. *)
Inductive State : Type :=
| INITIAL | DEFAULT | HEADING | PARAGRAPH | UNORDERED_LIST | ORDERED_LIST.

(** Enumerates the possible transitions that can occur. *)
Inductive Transition : Type :=
| POUND_SIGN | ASTERISK | OTHER_CHARACTER | LIST_NUMBER | EMPTY_LINE | NONE.

(** The bound methods that the transition table stores in its action
    lists. *)
Inductive Action : Type :=
| create_heading_m
| create_paragraph_start_m
| create_paragraph_end_m
| create_unordered_list_start_m
| create_unordered_list_end_m
| create_list_item_start_m
| create_list_item_end_m
| create_ordered_list_start_m
| create_ordered_list_end_m.

Definition State_eq_dec (a b : State) : {a = b} + {a <> b}.
Proof. decide equality. Defined.

Definition Transition_eq_dec (a b : Transition) : {a = b} + {a <> b}.
Proof. decide equality. Defined.

Definition Action_eq_dec (a b : Action) : {a = b} + {a <> b}.
Proof. decide equality. Defined.

(** Equality of the dict keys, pairs of a state and a transition. *)
Definition key_eqb (k1 k2 : State * Transition) : bool :=
  (if State_eq_dec (fst k1) (fst k2) then true else false)
  && (if Transition_eq_dec (snd k1) (snd k2) then true else false).

(* ================================================================== *)
(** ** The parser object and the monad of its methods *)

(** The attributes [__init__] creates. *)
Record Parser : Type := mkParser {
  is_previous_line_newline : bool;
  is_paragraph : bool;
  is_unordered_list : bool;
  state : State;
  output : str;
  tokens : list str
}.

(** [Parser()] *)
Definition Parser_init : Parser :=
  {| is_previous_line_newline := false;
     is_paragraph := false;
     is_unordered_list := false;
     state := INITIAL;
     output := [];
     tokens := [] |}.

Definition with_state (s : State) (self : Parser) : Parser :=
  {| is_previous_line_newline := is_previous_line_newline self;
     is_paragraph := is_paragraph self;
     is_unordered_list := is_unordered_list self;
     state := s;
     output := output self;
     tokens := tokens self |}.

Definition with_output (o : str) (self : Parser) : Parser :=
  {| is_previous_line_newline := is_previous_line_newline self;
     is_paragraph := is_paragraph self;
     is_unordered_list := is_unordered_list self;
     state := state self;
     output := o;
     tokens := tokens self |}.

Definition with_tokens (t : list str) (self : Parser) : Parser :=
  {| is_previous_line_newline := is_previous_line_newline self;
     is_paragraph := is_paragraph self;
     is_unordered_list := is_unordered_list self;
     state := state self;
     output := output self;
     tokens := t |}.

(** A method: it runs on the object, returns or raises, and leaves the
    object as mutated so far. *)
Definition M (A : Type) : Type := Parser -> result A * Parser.

Definition ret {A : Type} (a : A) : M A := fun self => (Ok a, self).

Definition bind {A B : Type} (m : M A) (f : A -> M B) : M B :=
  fun self =>
    match m self with
    | (Ok a, self') => f a self'
    | (Raise e, self') => (Raise e, self')
    end.

Definition lift {A : Type} (r : result A) : M A := fun self => (r, self).

Definition get_self : M Parser := fun self => (Ok self, self).

Definition set_state (s : State) : M unit :=
  fun self => (Ok tt, with_state s self).

Definition set_output (o : str) : M unit :=
  fun self => (Ok tt, with_output o self).

Definition set_tokens (t : list str) : M unit :=
  fun self => (Ok tt, with_tokens t self).

(** [self.output += s] *)
Definition add_output (s : str) : M unit :=
  fun self => (Ok tt, with_output (output self ++ s) self).

(** [try: body  except e: handler] *)
Definition try_except {A : Type} (body : M A) (e : exn) (handler : M A)
  : M A :=
  fun self =>
    match body self with
    | (Raise e', self') =>
        match e, e' with
        | IndexError, IndexError | KeyError, KeyError => handler self'
        | _, _ => (Raise e', self')
        end
    | r => r
    end.

Declare Scope method_scope.
Delimit Scope method_scope with method.
Bind Scope method_scope with M.
Notation "x <- m ;; k" := (bind m (fun x => k))
  (at level 61, m at next level, right associativity) : method_scope.
Notation "m ;; k" := (bind m (fun _ => k))
  (at level 61, right associativity) : method_scope.
Open Scope method_scope.

(** [for x in xs: body(x)] *)
Fixpoint for_each {A : Type} (xs : list A) (body : A -> M unit) : M unit :=
  match xs with
  | [] => ret tt
  | x :: xs' => body x ;; for_each xs' body
  end.

(** The same sequencing for expressions that only read: a [result]. *)
Definition rbind {A B : Type} (r : result A) (f : A -> result B)
  : result B :=
  match r with
  | Ok a => f a
  | Raise e => Raise e
  end.

(* ================================================================== *)
(** ** The methods of [Parser] *)

Definition pound : char := 35%N.      (* "#" *)
Definition asterisk : char := 42%N.   (* "*" *)
Definition period : char := 46%N.     (* "." *)
Definition space : str := [32%N].     (* " " *)

(** [self.tokens[i][j]]: either subscript may raise. *)
Definition token_char (tokens : list str) (i j : nat) : result char :=
  rbind (getitem tokens i) (fun token => getitem token j).

(** The if/elif chain that opens [Parser.transition]: the kind of the
    line, from its tokens.  [a and b and c] evaluates left to right and
    stops at the first false operand. *)
Definition classify (tokens : list str) : result Transition :=
  if length tokens =? 0 then Ok EMPTY_LINE
  else
    rbind (token_char tokens 0 0) (fun c =>
    if (c =? pound)%N then Ok POUND_SIGN
    else
      rbind (token_char tokens 0 0) (fun c =>
      if (c =? asterisk)%N then Ok ASTERISK
      else
        rbind (token_char tokens 0 0) (fun c =>
        if isdigit c then
          if 1 <? length tokens then
            rbind (token_char tokens 0 1) (fun d =>
            if (d =? period)%N then Ok LIST_NUMBER
            else Ok OTHER_CHARACTER)
          else Ok OTHER_CHARACTER
        else Ok OTHER_CHARACTER))).

(** The dict literal [transitions] of [Parser.transition], entry by entry;
    the value [None] of the source is [None] here. *)
Definition transitions
  : list ((State * Transition) * (State * option (list Action))) :=
  [ ((INITIAL, POUND_SIGN), (DEFAULT, Some [create_heading_m]));
    ((INITIAL, ASTERISK), (UNORDERED_LIST, None));
    ((INITIAL, OTHER_CHARACTER), (PARAGRAPH, None));
    ((INITIAL, LIST_NUMBER),
     (ORDERED_LIST,
      Some [create_ordered_list_start_m; create_list_item_start_m]));

    ((DEFAULT, POUND_SIGN), (DEFAULT, Some [create_heading_m]));
    ((DEFAULT, ASTERISK),
     (UNORDERED_LIST, Some [create_unordered_list_start_m]));
    ((DEFAULT, OTHER_CHARACTER),
     (PARAGRAPH, Some [create_paragraph_start_m]));
    ((DEFAULT, LIST_NUMBER),
     (ORDERED_LIST,
      Some [create_ordered_list_start_m; create_list_item_start_m]));

    ((PARAGRAPH, EMPTY_LINE), (DEFAULT, Some [create_paragraph_end_m]));
    ((PARAGRAPH, ASTERISK),
     (UNORDERED_LIST,
      Some [create_paragraph_end_m; create_unordered_list_start_m;
            create_list_item_start_m]));
    ((PARAGRAPH, LIST_NUMBER),
     (ORDERED_LIST,
      Some [create_paragraph_end_m; create_ordered_list_start_m;
            create_list_item_start_m]));
    ((PARAGRAPH, POUND_SIGN),
     (DEFAULT, Some [create_paragraph_end_m; create_heading_m]));

    ((UNORDERED_LIST, EMPTY_LINE),
     (DEFAULT, Some [create_list_item_end_m; create_unordered_list_end_m]));
    ((UNORDERED_LIST, ASTERISK),
     (UNORDERED_LIST,
      Some [create_list_item_end_m; create_list_item_start_m]));
    ((UNORDERED_LIST, LIST_NUMBER),
     (ORDERED_LIST,
      Some [create_list_item_end_m; create_unordered_list_end_m;
            create_ordered_list_start_m; create_list_item_start_m]));

    ((ORDERED_LIST, LIST_NUMBER),
     (ORDERED_LIST,
      Some [create_list_item_end_m; create_list_item_start_m]));
    ((ORDERED_LIST, EMPTY_LINE),
     (DEFAULT, Some [create_list_item_end_m; create_ordered_list_end_m]));
    ((ORDERED_LIST, ASTERISK),
     (UNORDERED_LIST,
      Some [create_list_item_end_m; create_ordered_list_end_m;
            create_unordered_list_start_m; create_list_item_start_m])) ].

(** The loop of [create_heading]: count the leading "#" of the first
    token, stopping at the first other character or at six. *)
Fixpoint count_pound_signs (characters : str) (pound_sign_count : nat)
  : nat :=
  match characters with
  | [] => pound_sign_count
  | character :: rest =>
      if (character =? pound)%N && (pound_sign_count <? 6)
      then count_pound_signs rest (S pound_sign_count)
      else pound_sign_count
  end.

(** Append the heading start tag, the heading content, and the heading end
    tag to the output. *)
Definition create_heading : M unit :=
  self <- get_self ;;
  token <- lift (getitem (tokens self) 0) ;;
  let pound_sign_count := count_pound_signs token 0 in
  add_output (lit "<h" ++ format_int pound_sign_count ++ lit ">" ++ nl) ;;
  self <- get_self ;;
  token <- lift (getitem (tokens self) 0) ;;
  add_output
    (join space (skipn pound_sign_count token :: tl (tokens self))) ;;
  add_output nl ;;
  add_output (lit "</h" ++ format_int pound_sign_count ++ lit ">").

(** Append the paragraph start tag and first line of paragraph content to
    the output. *)
Definition create_paragraph_start : M unit :=
  add_output (lit "<p>" ++ nl) ;;
  self <- get_self ;;
  add_output (join space (tokens self)).

(** Append the paragraph end tag to the output. *)
Definition create_paragraph_end : M unit := add_output (lit "</p>").

(** Append the unordered list start tag to the output. *)
Definition create_unordered_list_start : M unit := add_output (lit "<ul>").

(** Append the unordered list end tag to the output. *)
Definition create_unordered_list_end : M unit := add_output (lit "</ul>").

(** Append the list item start tag to the output. *)
Definition create_list_item_start : M unit :=
  add_output (lit "<li>" ++ nl) ;;
  self <- get_self ;;
  add_output (join space (tl (tokens self))).

(** Append the list item end tag to the output. *)
Definition create_list_item_end : M unit := add_output (lit "</li>").

(** Append the ordered list start tag to the output. *)
Definition create_ordered_list_start : M unit := add_output (lit "<ol>").

(** Append the ordered list end tag to the output. *)
Definition create_ordered_list_end : M unit := add_output (lit "</ol>").

(** [action()] for an entry of an action list. *)
Definition call (action : Action) : M unit :=
  match action with
  | create_heading_m => create_heading
  | create_paragraph_start_m => create_paragraph_start
  | create_paragraph_end_m => create_paragraph_end
  | create_unordered_list_start_m => create_unordered_list_start
  | create_unordered_list_end_m => create_unordered_list_end
  | create_list_item_start_m => create_list_item_start
  | create_list_item_end_m => create_list_item_end
  | create_ordered_list_start_m => create_ordered_list_start
  | create_ordered_list_end_m => create_ordered_list_end
  end.

(** [if transition_actions:] is false for [None] and for an empty list. *)
Definition truthy (transition_actions : option (list Action)) : bool :=
  match transition_actions with
  | Some (_ :: _) => true
  | _ => false
  end.

Definition actions_of (transition_actions : option (list Action))
  : list Action :=
  match transition_actions with
  | Some actions => actions
  | None => []
  end.

(** Execute the transition based on the current state and perform the
    associated actions, if any.  The [try] block yields the action list it
    looked up; its handler ends the method, which is [None] here. *)
Definition transition : M unit :=
  self <- get_self ;;
  transition <- lift (classify (tokens self)) ;;
  looked_up <-
    try_except
      (self <- get_self ;;
       entry <- lift (dict_getitem key_eqb transitions
                        (state self, transition)) ;;
       set_state (fst entry) ;;
       ret (Some (snd entry)))
      KeyError
      (self <- get_self ;;
       set_output (join space (tokens self)) ;;
       add_output nl ;;
       ret None) ;;
  match looked_up with
  | None => ret tt
  | Some transition_actions =>
      if truthy transition_actions
      then for_each (actions_of transition_actions)
             (fun action => call action ;; add_output nl)
      else
        self <- get_self ;;
        set_output (join space (tokens self)) ;;
        add_output nl
  end.

Definition parse_line (line : str) : M str :=
  set_output [] ;;
  set_tokens (split line) ;;
  transition ;;
  self <- get_self ;;
  ret (output self).

(** What the caller sees of one call: the returned text or the exception,
    and the object afterwards. *)
Definition returned {A : Type} (r : result A * Parser) : result A := fst r.
Definition after {A : Type} (r : result A * Parser) : Parser := snd r.

(** Successive [parse_line] calls on one parser, whatever each of them
    returned or raised: the object after the last one. *)
Definition parse_lines (lines : list str) (self : Parser) : Parser :=
  fold_left (fun p line => after (parse_line line p)) lines self.

(** The loop of [parse_to_html] over the lines of the file: what has been
    printed, and the exception that ended it early, if any. *)
Fixpoint parse_to_html_loop (lines : list str) (parser : Parser)
         (printed : str) : str * option exn :=
  match lines with
  | [] => (printed, None)
  | line :: rest =>
      match parse_line line parser with
      | (Ok text, parser') =>
          parse_to_html_loop rest parser' (printed ++ text)
      | (Raise e, _) => (printed, Some e)
      end
  end.

Definition parse_to_html (lines : list str) : str * option exn :=
  parse_to_html_loop lines Parser_init [].

(* ================================================================== *)
(** ** The vocabulary of the specification *)

Module Spec.

(** An ASCII digit, "0" to "9". *)
Definition is_ascii_digit (c : char) : bool :=
  (48 <=? c)%N && (c <=? 57)%N.

(** "The character at position [i] of the token is [c]"; false when the
    token has no such position. *)
Definition char_at_is (token : str) (i : nat) (c : char) : bool :=
  match nth_error token i with
  | Some x => (x =? c)%N
  | None => false
  end.

(** "The first character of the token is a digit", for a notion of digit. *)
Definition starts_with_digit (digit : char -> bool) (token : str) : bool :=
  match token with
  | c :: _ => digit c
  | [] => false
  end.

(** The classifier of section 4.2, in its priority order, for a notion of
    digit. *)
Definition line_signal (digit : char -> bool) (tokens : list str)
  : Transition :=
  match tokens with
  | [] => EMPTY_LINE
  | first :: _ =>
      if char_at_is first 0 pound then POUND_SIGN
      else if char_at_is first 0 asterisk then ASTERISK
      else if starts_with_digit digit first
              && (2 <=? length tokens)
              && char_at_is first 1 period
      then LIST_NUMBER
      else OTHER_CHARACTER
  end.

(** The lines on which the classifier reads a second character that the
    first token does not have: the first token is one digit character
    alone, and more tokens follow. *)
Definition lone_digit_head (tokens : list str) : bool :=
  match tokens with
  | [c] :: _ :: _ => isdigit c
  | _ => false
  end.

(** The number of consecutive leading "#" characters of a token. *)
Fixpoint leading_pounds (token : str) : nat :=
  match token with
  | c :: rest => if (c =? pound)%N then S (leading_pounds rest) else 0
  | [] => 0
  end.

(** The heading markup of section 4.4 at level [n]. *)
Definition heading_markup (n : nat) (tokens : list str) : str :=
  lit "<h" ++ format_int n ++ lit ">" ++ nl
  ++ join space (skipn n (hd [] tokens) :: tl tokens) ++ nl
  ++ lit "</h" ++ format_int n ++ lit ">".

(** The text of each emission action of section 4.4, for the tokens of the
    current line. *)
Definition emitted (action : Action) (tokens : list str) : str :=
  match action with
  | create_heading_m =>
      heading_markup (Nat.min (leading_pounds (hd [] tokens)) 6) tokens
  | create_paragraph_start_m => lit "<p>" ++ nl ++ join space tokens
  | create_paragraph_end_m => lit "</p>"
  | create_unordered_list_start_m => lit "<ul>"
  | create_unordered_list_end_m => lit "</ul>"
  | create_list_item_start_m => lit "<li>" ++ nl ++ join space (tl tokens)
  | create_list_item_end_m => lit "</li>"
  | create_ordered_list_start_m => lit "<ol>"
  | create_ordered_list_end_m => lit "</ol>"
  end.

(** The fallback output rule of section 4.3. *)
Definition continuation (tokens : list str) : str :=
  join space tokens ++ nl.

(** The number of newline characters in a text. *)
Definition newlines (s : str) : nat := count_occ N.eq_dec s 10%N.

(** The (state, signal) pair has an entry in the table. *)
Definition listed (s : State) (signal : Transition) : bool :=
  match dict_lookup key_eqb transitions (s, signal) with
  | Some _ => true
  | None => false
  end.

(** The states after each call of a sequence of [parse_line] calls. *)
Fixpoint states_after (lines : list str) (self : Parser) : list State :=
  match lines with
  | [] => []
  | line :: rest =>
      let self' := after (parse_line line self) in
      state self' :: states_after rest self'
  end.

End Spec.
Import Spec.

(* ================================================================== *)
(** ** What a call does, as functions of the state and the tokens *)

Module Run.

(** A text made of whitespace only (the empty text included). *)
Definition blank (line : str) : bool := forallb isspace line.

(** A token as [split] yields them: no whitespace character in it. *)
Definition spaceless (token : str) : Prop :=
  Forall (fun c => isspace c = false) token.

(** The actions the loop of [transition] calls for a line: those of the
    entry looked up, none when there is no entry, when its value has no
    action list, or when the classifier raised. *)
Definition fired (s : State) (tokens : list str) : list Action :=
  match classify tokens with
  | Ok signal =>
      match dict_lookup key_eqb transitions (s, signal) with
      | Some (_, transition_actions) => actions_of transition_actions
      | None => []
      end
  | Raise _ => []
  end.

(** The state an entry leads to, the same state without an entry. *)
Definition next_state (s : State) (tokens : list str) : State :=
  match classify tokens with
  | Ok signal =>
      match dict_lookup key_eqb transitions (s, signal) with
      | Some (next, _) => next
      | None => s
      end
  | Raise _ => s
  end.

(** The text of a line: each fired action followed by a newline, the
    continuation text when none fired. *)
Definition line_text (s : State) (tokens : list str) : str :=
  match fired s tokens with
  | [] => continuation tokens
  | actions => concat (map (fun a => emitted a tokens ++ nl) actions)
  end.

(** The actions fired by successive calls, in order. *)
Fixpoint fired_in_run (lines : list str) (self : Parser) : list Action :=
  match lines with
  | [] => []
  | line :: rest =>
      fired (state self) (split line)
      ++ fired_in_run rest (after (parse_line line self))
  end.

(** The texts the buffer holds after each of successive calls, put
    together. *)
Fixpoint buffered_in_run (lines : list str) (self : Parser) : str :=
  match lines with
  | [] => []
  | line :: rest =>
      output (after (parse_line line self))
      ++ buffered_in_run rest (after (parse_line line self))
  end.

(** The action that opens, and the action that closes, a block state. *)
Definition opens (block : State) (a : Action) : bool :=
  match block, a with
  | PARAGRAPH, create_paragraph_start_m
  | UNORDERED_LIST, create_unordered_list_start_m
  | ORDERED_LIST, create_ordered_list_start_m => true
  | _, _ => false
  end.

Definition closes (block : State) (a : Action) : bool :=
  match block, a with
  | PARAGRAPH, create_paragraph_end_m
  | UNORDERED_LIST, create_unordered_list_end_m
  | ORDERED_LIST, create_ordered_list_end_m => true
  | _, _ => false
  end.

Definition count_actions (f : Action -> bool) (actions : list Action)
  : nat :=
  length (filter f actions).

(** 1 when the parser is in the block, 0 otherwise. *)
Definition inside (block s : State) : nat :=
  if State_eq_dec s block then 1 else 0.

(** The newlines inside the text of each action. *)
Definition own_newlines (a : Action) : nat :=
  match a with
  | create_heading_m => 2
  | create_paragraph_start_m | create_list_item_start_m => 1
  | _ => 0
  end.

End Run.
Import Run.

Arguments isdigit : simpl never.
Arguments isspace : simpl never.
Arguments lit : simpl never.
Arguments format_int : simpl never.

(* ================================================================== *)
(** ** The built-ins *)

Example split_example :
  split (lit "  ## Title  x ") = [lit "##"; lit "Title"; lit "x"].
Proof. reflexivity. Qed.

Example split_newline_example :
  split (lit "Hello world" ++ nl) = [lit "Hello"; lit "world"]
  /\ split (lit "   " ++ nl) = [].
Proof. split; reflexivity. Qed.

Example join_example :
  join space [lit "a"; lit "b"; lit "c"] = lit "a b c".
Proof. reflexivity. Qed.

Example format_int_example : format_int 6 = lit "6" /\ format_int 0 = lit "0".
Proof. split; reflexivity. Qed.

Lemma in_ranges_above (rs : list (N * N)) (bound c : N) :
  forallb (fun r => (bound <=? fst r)%N) rs = true ->
  (c < bound)%N ->
  in_ranges rs c = false.
Proof.
  intros Hrs Hc. induction rs as [|r rs IH]; [reflexivity|].
  simpl in Hrs. apply andb_true_iff in Hrs. destruct Hrs as [Hr Hrs].
  apply N.leb_le in Hr.
  unfold in_ranges in *. simpl. rewrite (IH Hrs), orb_false_r.
  unfold in_range. apply andb_false_iff. left. apply N.leb_gt. lia.
Qed.

(** [str.isdigit] agrees with "ASCII digit" on ASCII; it goes beyond it
    elsewhere. *)
Lemma isdigit_ascii (c : char) :
  (c < 128)%N -> isdigit c = is_ascii_digit c.
Proof.
  intros Hc.
  change (isdigit c)
    with (in_range c (48, 57)%N || in_ranges (tl isdigit_ranges) c).
  rewrite (@in_ranges_above (tl isdigit_ranges) 128%N c);
    [apply orb_false_r | vm_compute; reflexivity | exact Hc].
Qed.

Example isdigit_beyond_ascii :
  isdigit 1635%N = true /\ is_ascii_digit 1635%N = false.
Proof. split; reflexivity. Qed.

Lemma split_from_nonempty (s word : str) :
  Forall (fun t => t <> []) (split_from word s).
Proof.
  revert word. induction s as [|c rest IH]; intros word; simpl.
  - destruct word as [|w ws]; constructor; [|constructor].
    simpl. intros H. apply app_eq_nil in H. destruct H; discriminate.
  - destruct (isspace c).
    + destruct word as [|w ws]; [apply IH|].
      constructor; [|apply IH].
      simpl. intros H. apply app_eq_nil in H. destruct H; discriminate.
    + apply IH.
Qed.

(** Every token of [line.split()] has at least one character. *)
Lemma split_nonempty (line : str) : Forall (fun t => t <> []) (split line).
Proof. apply split_from_nonempty. Qed.

(* ================================================================== *)
(** ** The classifier *)

(** The if/elif chain on a first token with at least one character. *)
Lemma classify_cons (c : char) (cs : str) (rest : list str) :
  classify ((c :: cs) :: rest) =
  if (c =? pound)%N then Ok POUND_SIGN
  else if (c =? asterisk)%N then Ok ASTERISK
  else if isdigit c then
    match rest, cs with
    | [], _ => Ok OTHER_CHARACTER
    | _ :: _, [] => Raise IndexError
    | _ :: _, d :: _ => if (d =? period)%N then Ok LIST_NUMBER
                        else Ok OTHER_CHARACTER
    end
  else Ok OTHER_CHARACTER.
Proof.
  unfold classify, token_char, rbind, getitem.
  cbn [length Nat.eqb nth_error].
  destruct (c =? pound)%N; [reflexivity|].
  destruct (c =? asterisk)%N; [reflexivity|].
  destruct (isdigit c); [|reflexivity].
  destruct rest as [|r rest]; [reflexivity|].
  cbn [length Nat.ltb Nat.leb].
  destruct cs as [|d cs]; [reflexivity|].
  reflexivity.
Qed.

Lemma isdigit_not_pound_asterisk (c : char) :
  isdigit c = true -> (c =? pound)%N = false /\ (c =? asterisk)%N = false.
Proof.
  intros H. split; apply N.eqb_neq; intros ->; vm_compute in H; discriminate.
Qed.

(** The classifier raises exactly on the lines whose first token is one
    digit character alone with more tokens after it, and what it raises is
    [IndexError]. *)
Lemma classify_raises_iff (line : str) (e : exn) :
  classify (split line) = Raise e <->
  lone_digit_head (split line) = true /\ e = IndexError.
Proof.
  pose proof (split_nonempty line) as Hne.
  destruct (split line) as [|t rest]; [split; [discriminate|intros [H _]; discriminate]|].
  inversion Hne as [|? ? Ht _]; subst.
  destruct t as [|c cs]; [congruence|]. clear Ht Hne.
  rewrite classify_cons. unfold lone_digit_head.
  destruct (isdigit c) eqn:Hd.
  - destruct (isdigit_not_pound_asterisk c Hd) as [-> ->].
    destruct rest as [|r rest], cs as [|d cs];
      try (split; [discriminate|intros [H _]; discriminate]).
    + split; [intros H; inversion H; auto | intros [_ ->]; reflexivity].
    + destruct (d =? period)%N;
        (split; [discriminate|intros [H _]; discriminate]).
  - destruct (c =? pound)%N; [|destruct (c =? asterisk)%N];
      (split; [discriminate|]); intros [H _];
      destruct cs; try discriminate; destruct rest; try discriminate;
      congruence.
Qed.

(** Off those lines the classifier returns, and what it returns is the
    priority rule of section 4.2 read with [str.isdigit] as the notion of
    digit. *)
Lemma classify_line_signal (line : str) :
  lone_digit_head (split line) = false ->
  classify (split line) = Ok (line_signal isdigit (split line)).
Proof.
  pose proof (split_nonempty line) as Hne.
  destruct (split line) as [|t rest]; [reflexivity|].
  inversion Hne as [|? ? Ht _]; subst.
  destruct t as [|c cs]; [congruence|]. clear Ht Hne.
  rewrite classify_cons. unfold lone_digit_head, line_signal, char_at_is.
  cbn [nth_error starts_with_digit length].
  destruct (c =? pound)%N; [reflexivity|].
  destruct (c =? asterisk)%N; [reflexivity|].
  destruct (isdigit c); [|reflexivity].
  destruct rest as [|r rest]; [reflexivity|].
  destruct cs as [|d cs]; [discriminate|].
  intros _. cbn. destruct (d =? period)%N; reflexivity.
Qed.

(** The classifier never yields [Transition.NONE]. *)
Lemma classify_not_NONE (tokens : list str) :
  classify tokens <> Ok NONE.
Proof.
  unfold classify, token_char, rbind, getitem.
  destruct (length tokens =? 0); [discriminate|].
  destruct (nth_error tokens 0) as [t|]; [|discriminate].
  destruct (nth_error t 0) as [c|]; [|discriminate].
  destruct (c =? pound)%N; [discriminate|].
  destruct (c =? asterisk)%N; [discriminate|].
  destruct (isdigit c); [|discriminate].
  destruct (1 <? length tokens); [|discriminate].
  destruct (nth_error t 1) as [d|]; [|discriminate].
  destruct (d =? period)%N; discriminate.
Qed.

(** A line classified as anything but [EMPTY_LINE] has a first token. *)
Lemma classify_tokens_nonempty (tokens : list str) (signal : Transition) :
  classify tokens = Ok signal -> signal <> EMPTY_LINE -> tokens <> [].
Proof.
  intros H Hs ->. cbn in H. congruence.
Qed.

(* ================================================================== *)
(** ** The emission actions *)

Lemma count_pound_signs_from (token : str) (k : nat) :
  k <= 6 ->
  count_pound_signs token k = Nat.min (k + leading_pounds token) 6.
Proof.
  revert k. induction token as [|c rest IH]; intros k Hk; simpl.
  - lia.
  - destruct (c =? pound)%N; simpl.
    + destruct (k <? 6) eqn:E.
      * apply Nat.ltb_lt in E. rewrite IH by lia. f_equal. lia.
      * apply Nat.ltb_ge in E. lia.
    + lia.
Qed.

(** The loop of [create_heading] counts [min(leading "#", 6)]. *)
Lemma count_pound_signs_min (token : str) :
  count_pound_signs token 0 = Nat.min (leading_pounds token) 6.
Proof. apply (count_pound_signs_from token (Nat.le_0_l 6)). Qed.

(** The counted characters are all "#": the rest of the first token, which
    the heading keeps, is the token without them. *)
Lemma leading_pounds_prefix (token : str) (n : nat) :
  n <= leading_pounds token ->
  token = repeat pound n ++ skipn n token.
Proof.
  revert n. induction token as [|c rest IH]; intros n Hn; simpl in Hn.
  - replace n with 0 by lia. reflexivity.
  - destruct n as [|n]; [reflexivity|].
    destruct (c =? pound)%N eqn:E; [|lia].
    apply N.eqb_eq in E. subst c. simpl. f_equal. apply IH. lia.
Qed.

Lemma with_output_with_output (o o' : str) (self : Parser) :
  with_output o (with_output o' self) = with_output o self.
Proof. reflexivity. Qed.

(** Each action returns, and what it does is append its text of section
    4.4 to the output buffer; [create_heading] needs a first token. *)
Lemma call_emits (action : Action) (self : Parser) :
  (action = create_heading_m -> tokens self <> []) ->
  call action self =
  (Ok tt, with_output (output self ++ emitted action (tokens self)) self).
Proof.
  intros Hh. destruct self as [f1 f2 f3 st out toks].
  destruct action; try reflexivity.
  - destruct toks as [|t rest]; [exfalso; apply Hh; reflexivity|].
    unfold call, create_heading, bind, get_self, lift, add_output, getitem,
      with_output, emitted, heading_markup.
    cbn [tokens output nth_error hd tl is_previous_line_newline is_paragraph
         is_unordered_list state].
    rewrite count_pound_signs_min.
    repeat rewrite <- app_assoc. reflexivity.
  - unfold call, create_paragraph_start, bind, get_self, add_output,
      with_output, emitted.
    cbn [tokens output is_previous_line_newline is_paragraph
         is_unordered_list state].
    repeat rewrite <- app_assoc. reflexivity.
  - unfold call, create_list_item_start, bind, get_self, add_output,
      with_output, emitted.
    cbn [tokens output is_previous_line_newline is_paragraph
         is_unordered_list state].
    repeat rewrite <- app_assoc. reflexivity.
Qed.

(** Without a first token, [create_heading] raises [IndexError] before it
    appends anything. *)
Lemma create_heading_no_token (self : Parser) :
  tokens self = [] -> create_heading self = (Raise IndexError, self).
Proof.
  destruct self as [f1 f2 f3 st out toks]. simpl. intros ->. reflexivity.
Qed.

(** The loop of the driver over an action list: after each action, one
    newline. *)
Lemma for_each_actions (actions : list Action) (self : Parser) :
  (In create_heading_m actions -> tokens self <> []) ->
  for_each actions (fun action => call action ;; add_output nl) self =
  (Ok tt,
   with_output
     (output self
      ++ concat (map (fun a => emitted a (tokens self) ++ nl) actions))
     self).
Proof.
  revert self. induction actions as [|a actions IH]; intros self Hh.
  - simpl. rewrite app_nil_r. destruct self; reflexivity.
  - cbn [for_each]. unfold bind at 1. unfold bind at 1.
    rewrite call_emits by (intros ->; apply Hh; left; reflexivity).
    unfold add_output at 1. rewrite with_output_with_output.
    rewrite IH by (intros H; apply Hh; right; exact H).
    rewrite with_output_with_output.
    destruct self as [f1 f2 f3 st out toks]. unfold with_output.
    cbn [tokens output is_previous_line_newline is_paragraph
         is_unordered_list state map concat].
    repeat rewrite <- app_assoc. reflexivity.
Qed.

(* ================================================================== *)
(** ** The transition table *)

Ltac table_cases s signal H :=
  destruct s, signal; cbn in H; try discriminate H;
  injection H as <- <-.

(** No key occurs twice in the dict literal. *)
Lemma transitions_keys_NoDup : NoDup (map fst transitions).
Proof.
  repeat (constructor; [cbn; intuition discriminate|]). constructor.
Qed.

(** No entry leads to [HEADING] or back to [INITIAL]. *)
Lemma table_next_state (s next : State) (signal : Transition)
      (actions : option (list Action)) :
  dict_lookup key_eqb transitions (s, signal) = Some (next, actions) ->
  next <> HEADING /\ next <> INITIAL.
Proof. intros H. table_cases s signal H; split; discriminate. Qed.

(** [create_heading] is listed only under [POUND_SIGN]. *)
Lemma table_heading_signal (s next : State) (signal : Transition)
      (actions : option (list Action)) :
  dict_lookup key_eqb transitions (s, signal) = Some (next, actions) ->
  In create_heading_m (actions_of actions) ->
  signal = POUND_SIGN.
Proof.
  intros H Hin. table_cases s signal H; try reflexivity;
    cbn in Hin; intuition discriminate.
Qed.

(** An action list of the table is never the empty list. *)
Lemma table_actions_truthy (s next : State) (signal : Transition)
      (actions : list Action) :
  dict_lookup key_eqb transitions (s, signal) = Some (next, Some actions) ->
  truthy (Some actions) = true.
Proof. intros H. table_cases s signal H; reflexivity. Qed.

(** Where [create_list_item_start] is listed, it is the last action. *)
Lemma table_list_item_start_last (s next : State) (signal : Transition)
      (actions : list Action) :
  dict_lookup key_eqb transitions (s, signal) = Some (next, Some actions) ->
  In create_list_item_start_m actions ->
  exists before, actions = before ++ [create_list_item_start_m]
                 /\ ~ In create_heading_m before
                 /\ ~ In create_paragraph_start_m before
                 /\ ~ In create_list_item_start_m before.
Proof.
  intros H Hin.
  table_cases s signal H; cbn in Hin;
    try (exfalso; intuition discriminate);
    match goal with
    | |- context [?l = _ ++ _] => exists (removelast l)
    end; cbn; intuition discriminate.
Qed.

(* ================================================================== *)
(** ** The driver *)

(** [Parser.transition], case by case. *)
Lemma transition_run (self : Parser) :
  transition self =
  match classify (tokens self) with
  | Raise e => (Raise e, self)
  | Ok signal =>
      match dict_lookup key_eqb transitions (state self, signal) with
      | None => (Ok tt, with_output (continuation (tokens self)) self)
      | Some (next, actions) =>
          if truthy actions
          then for_each (actions_of actions)
                 (fun action => call action ;; add_output nl)
                 (with_state next self)
          else (Ok tt,
                with_output (continuation (tokens self))
                  (with_state next self))
      end
  end.
Proof.
  unfold transition, bind, lift, get_self, try_except, dict_getitem.
  destruct (classify (tokens self)) as [signal|e]; [|reflexivity].
  destruct (dict_lookup key_eqb transitions (state self, signal))
    as [[next actions]|].
  - cbn. destruct (truthy actions); reflexivity.
  - reflexivity.
Qed.

(** [Parser.parse_line]: reset the buffer, tokenize, run the transition,
    return the buffer. *)
Lemma parse_line_run (line : str) (self : Parser) :
  parse_line line self =
  match transition (with_tokens (split line) (with_output [] self)) with
  | (Ok _, self') => (Ok (output self'), self')
  | (Raise e, self') => (Raise e, self')
  end.
Proof.
  unfold parse_line, bind, set_output, set_tokens, get_self, ret.
  destruct (transition _) as [[[]|e] self']; reflexivity.
Qed.

(** The classifier raised: the call raises, the state is as before. *)
Lemma parse_line_raise (line : str) (self : Parser) (e : exn) :
  classify (split line) = Raise e ->
  parse_line line self
  = (Raise e, with_tokens (split line) (with_output [] self)).
Proof.
  intros Hc. rewrite parse_line_run, transition_run.
  cbn [tokens with_tokens]. rewrite Hc. reflexivity.
Qed.

(** No entry: the continuation rule, the state is as before. *)
Lemma parse_line_miss (line : str) (self : Parser) (signal : Transition) :
  classify (split line) = Ok signal ->
  dict_lookup key_eqb transitions (state self, signal) = None ->
  parse_line line self
  = (Ok (continuation (split line)),
     with_output (continuation (split line))
       (with_tokens (split line) self)).
Proof.
  intros Hc Hl. rewrite parse_line_run, transition_run.
  cbn [tokens with_tokens state with_output]. rewrite Hc, Hl.
  destruct self; reflexivity.
Qed.

(** An entry without actions: the new state, the continuation text. *)
Lemma parse_line_hit_no_actions (line : str) (self : Parser)
      (signal : Transition) (next : State)
      (actions : option (list Action)) :
  classify (split line) = Ok signal ->
  dict_lookup key_eqb transitions (state self, signal)
  = Some (next, actions) ->
  truthy actions = false ->
  parse_line line self
  = (Ok (continuation (split line)),
     with_output (continuation (split line))
       (with_state next (with_tokens (split line) self))).
Proof.
  intros Hc Hl Ht. rewrite parse_line_run, transition_run.
  cbn [tokens with_tokens state with_output]. rewrite Hc, Hl, Ht.
  destruct self; reflexivity.
Qed.

(** An entry with actions: the new state, each action's text followed by
    one newline. *)
Lemma parse_line_hit (line : str) (self : Parser)
      (signal : Transition) (next : State) (actions : list Action) :
  classify (split line) = Ok signal ->
  dict_lookup key_eqb transitions (state self, signal)
  = Some (next, Some actions) ->
  let text := concat (map (fun a => emitted a (split line) ++ nl) actions) in
  parse_line line self
  = (Ok text,
     with_output text (with_state next (with_tokens (split line) self))).
Proof.
  intros Hc Hl text. rewrite parse_line_run, transition_run.
  cbn [tokens with_tokens state with_output]. rewrite Hc, Hl.
  rewrite (table_actions_truthy _ _ Hl). cbn [actions_of].
  rewrite for_each_actions.
  - destruct self; reflexivity.
  - intros Hin. cbn [tokens with_state with_tokens with_output].
    apply (classify_tokens_nonempty Hc).
    rewrite (table_heading_signal _ _ Hl Hin). discriminate.
Qed.

(** A call of [parse_line] raises exactly when the classifier does: on the
    lines whose first token is one digit character alone with more tokens
    after it. *)
Lemma parse_line_raises_iff (line : str) (self : Parser) (e : exn) :
  returned (parse_line line self) = Raise e <->
  lone_digit_head (split line) = true /\ e = IndexError.
Proof.
  rewrite <- classify_raises_iff.
  destruct (classify (split line)) as [signal|e'] eqn:Hc.
  - split; [|discriminate]. intros H. exfalso. revert H.
    destruct (dict_lookup key_eqb transitions (state self, signal))
      as [[next [actions|]]|] eqn:Hl.
    + rewrite (parse_line_hit _ _ Hc Hl). discriminate.
    + rewrite (parse_line_hit_no_actions _ _ Hc Hl eq_refl). discriminate.
    + rewrite (parse_line_miss _ _ Hc Hl). discriminate.
  - rewrite (parse_line_raise _ self Hc). unfold returned, fst.
    split; intros H; inversion H; reflexivity.
Qed.

(* ================================================================== *)
(** ** The properties of the specification *)

(** C1 (the claim: no input line ever makes [parse_line] raise).  The code
    does raise: on the line ["1 item"] the classifier finds a digit at the
    start of the first token and a second token, then reads the second
    character of the one-character token ["1"], which raises [IndexError];
    nothing catches it, so the call raises and the loop of [parse_to_html]
    ends with the exception, from [INITIAL] or in the middle of a
    document. *)
Theorem parse_line_lone_digit_raises :
  classify (split (lit "1 item")) = Raise IndexError
  /\ returned (parse_line (lit "1 item") Parser_init) = Raise IndexError
  /\ state (after (parse_line (lit "1 item") Parser_init)) = INITIAL
  /\ parse_to_html [lit "Hello world"; lit "7 apples"; lit ""]
     = (lit "Hello world" ++ nl, Some IndexError).
Proof. repeat split; vm_compute; reflexivity. Qed.

(** C2, as stated, fails: the digit test of the code is [str.isdigit],
    which holds of digits outside ASCII.  The line made of U+0663
    (ARABIC-INDIC DIGIT THREE), ".", a space and "Item" is classified
    [LIST_NUMBER] by the code and [OTHER_CHARACTER] by the rule read with
    ASCII digits. *)
Lemma classify_non_ascii_digit :
  classify (split ([1635%N] ++ lit ". Item")) = Ok LIST_NUMBER
  /\ line_signal is_ascii_digit (split ([1635%N] ++ lit ". Item"))
     = OTHER_CHARACTER.
Proof. split; vm_compute; reflexivity. Qed.

(** C2, amended: on every line whose first token is not one digit
    character alone followed by more tokens, the classifier yields the
    priority rule (empty, then first character "#", then first character
    "*", then digit first and at least two tokens and "." second, then
    other text) with [str.isdigit] deciding what a digit is; ["1. Item"]
    is [LIST_NUMBER], ["10. Item"] is [OTHER_CHARACTER]; and among token
    sequences with the same first token and at least one more token, what
    the later tokens are never changes the classification. *)
Theorem classify_priority_order
        (line : str) (first later later' : str) (rest rest' : list str) :
  lone_digit_head (split line) = false ->
  classify (split line) = Ok (line_signal isdigit (split line))
  /\ classify (split (lit "1. Item")) = Ok LIST_NUMBER
  /\ classify (split (lit "10. Item")) = Ok OTHER_CHARACTER
  /\ classify (first :: later :: rest) = classify (first :: later' :: rest').
Proof.
  intros H. split; [exact (classify_line_signal line H)|].
  split; [vm_compute; reflexivity|]. split; [vm_compute; reflexivity|].
  reflexivity.
Qed.

Lemma classify_priority_order_witness :
  lone_digit_head (split (lit "1. Item")) = false
  /\ classify (split (lit "1. Item"))
     = Ok (line_signal isdigit (split (lit "1. Item")))
  /\ classify [lit "1."; lit "Item"] = classify [lit "1."; lit "x"; lit "y"].
Proof.
  split; [reflexivity|].
  destruct (@classify_priority_order (lit "1. Item") (lit "1.") (lit "Item")
              (lit "x") [] [lit "y"] eq_refl) as [H1 [_ [_ H4]]].
  split; [exact H1 | exact H4].
Defined.

Lemma newlines_app (s t : str) : newlines (s ++ t) = newlines s + newlines t.
Proof. apply count_occ_app. Qed.

Lemma newlines_per_action (f : Action -> str) (actions : list Action) :
  newlines (concat (map (fun a => f a ++ nl) actions))
  = length actions + list_sum (map (fun a => newlines (f a)) actions).
Proof.
  induction actions as [|a actions IH]; [reflexivity|].
  cbn [map concat length list_sum fold_right].
  rewrite !newlines_app, IH.
  change (newlines nl) with 1. unfold list_sum. lia.
Qed.

(** C3: when the lookup hits an entry with an action list of [k] actions,
    each action appends its own text and the driver appends one newline
    right after each of them, the last of which ends the line's output: the
    output is the concatenation over the list of (action text, newline),
    and it holds [k] newlines besides those inside the actions' texts. *)
Theorem driver_newline_after_each_action
        (line : str) (self : Parser) (signal : Transition) (next : State)
        (actions : list Action) :
  classify (split line) = Ok signal ->
  dict_lookup key_eqb transitions (state self, signal)
  = Some (next, Some actions) ->
  (forall a p, In a actions -> tokens p = split line ->
     call a p = (Ok tt, with_output (output p ++ emitted a (split line)) p))
  /\ returned (parse_line line self)
     = Ok (concat (map (fun a => emitted a (split line) ++ nl) actions))
  /\ (exists body, returned (parse_line line self) = Ok (body ++ nl))
  /\ newlines (output (after (parse_line line self)))
     = length actions
       + list_sum (map (fun a => newlines (emitted a (split line))) actions).
Proof.
  intros Hc Hl. repeat split.
  - intros a p Hin Hp. rewrite <- Hp. apply call_emits.
    intros ->. rewrite Hp. apply (classify_tokens_nonempty Hc).
    rewrite (@table_heading_signal _ _ _ (Some actions) Hl Hin).
    discriminate.
  - rewrite (parse_line_hit _ _ Hc Hl). reflexivity.
  - rewrite (parse_line_hit _ _ Hc Hl). unfold returned, fst.
    pose proof (table_actions_truthy _ _ Hl) as Ht.
    destruct actions as [|a actions] using rev_ind; [discriminate|].
    exists (concat (map (fun a => emitted a (split line) ++ nl) actions)
            ++ emitted a (split line)).
    rewrite map_app, concat_app. cbn [map concat].
    rewrite app_nil_r, app_assoc. reflexivity.
  - rewrite (parse_line_hit _ _ Hc Hl). unfold after, snd.
    cbn [output with_output]. apply newlines_per_action.
Qed.

Lemma driver_newline_after_each_action_witness :
  classify (split (lit "* item")) = Ok ASTERISK
  /\ dict_lookup key_eqb transitions
       (state (with_state PARAGRAPH Parser_init), ASTERISK)
     = Some (UNORDERED_LIST,
             Some [create_paragraph_end_m; create_unordered_list_start_m;
                   create_list_item_start_m])
  /\ returned (parse_line (lit "* item") (with_state PARAGRAPH Parser_init))
     = Ok (lit "</p>" ++ nl ++ lit "<ul>" ++ nl
           ++ lit "<li>" ++ nl ++ lit "item" ++ nl)
  /\ newlines
       (output
          (after (parse_line (lit "* item")
                    (with_state PARAGRAPH Parser_init))))
     = 3 + 1.
Proof.
  split; [reflexivity|]. split; [reflexivity|].
  destruct (@driver_newline_after_each_action (lit "* item")
              (with_state PARAGRAPH Parser_init) ASTERISK UNORDERED_LIST
              [create_paragraph_end_m; create_unordered_list_start_m;
               create_list_item_start_m] eq_refl eq_refl)
    as [_ [H2 [_ H4]]].
  split; [exact H2 | exact H4].
Defined.

(** C4: the document ["Hello world"], ["more text"], [""] from the start
    state.  The first line returns ["Hello world\n"], without any [<p>],
    and leaves the parser in [PARAGRAPH]; the second returns
    ["more text\n"] and stays in [PARAGRAPH]; the third returns ["</p>\n"]
    and leaves it in [DEFAULT]; what is printed in all is
    ["Hello world\nmore text\n</p>\n"], the same when each line comes
    with its line terminator as it does from the file. *)
Theorem hello_world_document :
  let r1 := parse_line (lit "Hello world") Parser_init in
  let r2 := parse_line (lit "more text") (after r1) in
  let r3 := parse_line (lit "") (after r2) in
  state Parser_init = INITIAL
  /\ returned r1 = Ok (lit "Hello world" ++ nl)
  /\ state (after r1) = PARAGRAPH
  /\ returned r2 = Ok (lit "more text" ++ nl)
  /\ state (after r2) = PARAGRAPH
  /\ returned r3 = Ok (lit "</p>" ++ nl)
  /\ state (after r3) = DEFAULT
  /\ parse_to_html [lit "Hello world"; lit "more text"; lit ""]
     = (lit "Hello world" ++ nl ++ lit "more text" ++ nl ++ lit "</p>" ++ nl,
        None)
  /\ parse_to_html [lit "Hello world" ++ nl; lit "more text" ++ nl; nl]
     = (lit "Hello world" ++ nl ++ lit "more text" ++ nl ++ lit "</p>" ++ nl,
        None).
Proof. cbv zeta. repeat split; vm_compute; reflexivity. Qed.

(** C5: on a heading line (first token starting with "#"), the level
    [create_heading] emits is [min(leading "#" of the first token, 6)]; the
    counted characters are stripped and every character after them, a
    seventh "#" included, stays in the heading text.  From [INITIAL] and
    [DEFAULT] the line's output is the heading and the driver's newline,
    from [PARAGRAPH] it follows the closed paragraph; ["## Title"] from
    [DEFAULT] gives ["<h2>\n Title\n</h2>\n"] and ["###Title"] gives
    ["<h3>\nTitle\n</h3>\n"]. *)
Theorem heading_level_capped
        (line : str) (self : Parser) (cs : str) (rest : list str) :
  split line = (pound :: cs) :: rest ->
  let first := pound :: cs in
  let n := Nat.min (leading_pounds first) 6 in
  let heading :=
    lit "<h" ++ format_int n ++ lit ">" ++ nl
    ++ join space (skipn n first :: rest) ++ nl
    ++ lit "</h" ++ format_int n ++ lit ">" in
  classify (split line) = Ok POUND_SIGN
  /\ 1 <= n <= 6
  /\ first = repeat pound n ++ skipn n first
  /\ create_heading (with_tokens (split line) self)
     = (Ok tt,
        with_output (output self ++ heading) (with_tokens (split line) self))
  /\ (state self = INITIAL \/ state self = DEFAULT ->
      returned (parse_line line self) = Ok (heading ++ nl))
  /\ (state self = PARAGRAPH ->
      returned (parse_line line self)
      = Ok (lit "</p>" ++ nl ++ heading ++ nl))
  /\ returned (parse_line (lit "## Title") (with_state DEFAULT Parser_init))
     = Ok (lit "<h2>" ++ nl ++ lit " Title" ++ nl ++ lit "</h2>" ++ nl)
  /\ returned (parse_line (lit "###Title") (with_state DEFAULT Parser_init))
     = Ok (lit "<h3>" ++ nl ++ lit "Title" ++ nl ++ lit "</h3>" ++ nl)
  /\ returned
       (parse_line (lit "####### Title") (with_state DEFAULT Parser_init))
     = Ok (lit "<h6>" ++ nl ++ lit "# Title" ++ nl ++ lit "</h6>" ++ nl).
Proof.
  intros Hs first n heading.
  assert (Hc : classify (split line) = Ok POUND_SIGN).
  { rewrite Hs, classify_cons. reflexivity. }
  assert (Hn : 1 <= n <= 6).
  { subst n first. cbn [leading_pounds]. change (pound =? pound)%N with true.
    cbn iota. lia. }
  assert (Hem : emitted create_heading_m (split line) = heading).
  { rewrite Hs. reflexivity. }
  split; [exact Hc|]. split; [exact Hn|].
  split; [apply leading_pounds_prefix; subst n; lia|].
  split.
  { rewrite <- Hem.
    apply (@call_emits create_heading_m (with_tokens (split line) self)).
    intros _. cbn [tokens with_tokens]. rewrite Hs. discriminate. }
  split.
  { intros [Hst|Hst];
      rewrite (@parse_line_hit line self POUND_SIGN DEFAULT
                 [create_heading_m] Hc) by (rewrite Hst; reflexivity);
      unfold returned, fst; cbn [map concat]; rewrite Hem, app_nil_r;
      reflexivity. }
  split.
  { intros Hst.
    rewrite (@parse_line_hit line self POUND_SIGN DEFAULT
               [create_paragraph_end_m; create_heading_m] Hc)
      by (rewrite Hst; reflexivity).
    unfold returned, fst. cbn [map concat emitted].
    fold (emitted create_heading_m (split line)).
    rewrite Hem, app_nil_r, <- !app_assoc. reflexivity. }
  repeat split; vm_compute; reflexivity.
Qed.

Lemma heading_level_capped_witness :
  split (lit "######## Eight") = (pound :: lit "#######") :: [lit "Eight"]
  /\ Nat.min (leading_pounds (lit "########")) 6 = 6
  /\ returned (parse_line (lit "######## Eight") Parser_init)
     = Ok (lit "<h6>" ++ nl ++ lit "## Eight" ++ nl ++ lit "</h6>" ++ nl).
Proof.
  split; [reflexivity|]. split; [reflexivity|].
  destruct (@heading_level_capped (lit "######## Eight") Parser_init
              (lit "#######") [lit "Eight"] eq_refl)
    as [_ [_ [_ [_ [H _]]]]].
  exact (H (or_introl eq_refl)).
Defined.

(** C6: when the (state, signal) pair of a line has no entry in the table,
    the line's output is its tokens joined by one space and one newline,
    and the state is the one before the call. *)
Theorem unlisted_pair_continues
        (line : str) (self : Parser) (signal : Transition) :
  classify (split line) = Ok signal ->
  listed (state self) signal = false ->
  returned (parse_line line self) = Ok (join space (split line) ++ nl)
  /\ state (after (parse_line line self)) = state self.
Proof.
  intros Hc Hl. unfold listed in Hl.
  destruct (dict_lookup key_eqb transitions (state self, signal)) eqn:E;
    [discriminate|].
  rewrite (parse_line_miss _ _ Hc E). split; reflexivity.
Qed.

Lemma unlisted_pair_continues_witness :
  classify (split (lit "more   text")) = Ok OTHER_CHARACTER
  /\ listed PARAGRAPH OTHER_CHARACTER = false
  /\ returned (parse_line (lit "more   text")
                 (with_state PARAGRAPH Parser_init))
     = Ok (lit "more text" ++ nl)
  /\ state (after (parse_line (lit "more   text")
                     (with_state PARAGRAPH Parser_init)))
     = PARAGRAPH.
Proof.
  split; [reflexivity|]. split; [reflexivity|].
  exact (@unlisted_pair_continues (lit "more   text")
           (with_state PARAGRAPH Parser_init) OTHER_CHARACTER
           eq_refl eq_refl).
Defined.

(** The closing tags and the list-opening tags have no token in them. *)
Lemma emitted_tag_only (a : Action) (tokens : list str) :
  a <> create_heading_m -> a <> create_paragraph_start_m ->
  a <> create_list_item_start_m ->
  emitted a tokens = emitted a [].
Proof. intros H1 H2 H3. destruct a; try reflexivity; congruence. Qed.

(** C7: [create_list_item_start] appends ["<li>"], a newline and the tokens
    after the first joined by single spaces; with one token only, what it
    appends after the tag and the newline is empty, whatever the token.
    In every entry that lists it, it comes last: the line's output is the
    tags of the actions before it, then this text, then the newline of the
    driver, and nothing of the first token. *)
Theorem list_item_start_drops_first_token
        (line : str) (self : Parser) (signal : Transition) (next : State)
        (actions : list Action) :
  classify (split line) = Ok signal ->
  dict_lookup key_eqb transitions (state self, signal)
  = Some (next, Some actions) ->
  In create_list_item_start_m actions ->
  (forall p : Parser,
     create_list_item_start p
     = (Ok tt,
        with_output
          (output p ++ lit "<li>" ++ nl ++ join space (tl (tokens p))) p))
  /\ (forall (p : Parser) (only : str),
        tokens p = [only] ->
        create_list_item_start p
        = (Ok tt, with_output (output p ++ lit "<li>" ++ nl) p))
  /\ exists before,
       actions = before ++ [create_list_item_start_m]
       /\ returned (parse_line line self)
          = Ok (concat (map (fun a => emitted a [] ++ nl) before)
                ++ lit "<li>" ++ nl ++ join space (tl (split line)) ++ nl).
Proof.
  intros Hc Hl Hin.
  assert (Hact : forall p : Parser,
             create_list_item_start p
             = (Ok tt,
                with_output
                  (output p ++ lit "<li>" ++ nl
                   ++ join space (tl (tokens p))) p)).
  { intros p. apply (@call_emits create_list_item_start_m p).
    discriminate. }
  split; [exact Hact|]. split.
  { intros p only Hp. rewrite Hact, Hp. cbn [tl join].
    rewrite app_nil_r. reflexivity. }
  destruct (table_list_item_start_last _ _ Hl Hin)
    as [before [-> [Hh [Hp Hi]]]].
  exists before. split; [reflexivity|].
  rewrite (parse_line_hit _ _ Hc Hl). unfold returned, fst.
  rewrite map_app, concat_app. cbn [map concat emitted].
  rewrite app_nil_r, <- !app_assoc. do 2 f_equal.
  f_equal. apply map_ext_in. intros a Ha.
  rewrite (@emitted_tag_only a (split line)); [reflexivity| | |];
    intros ->; contradiction.
Qed.

Lemma list_item_start_drops_first_token_witness :
  classify (split (lit "*item")) = Ok ASTERISK
  /\ In create_list_item_start_m
       [create_list_item_end_m; create_list_item_start_m]
  /\ create_list_item_start
       (with_tokens [lit "*item"] (with_output (lit "</li>" ++ nl) Parser_init))
     = (Ok tt,
        with_output (lit "</li>" ++ nl ++ lit "<li>" ++ nl)
          (with_tokens [lit "*item"] Parser_init))
  /\ exists before,
       before ++ [create_list_item_start_m]
       = [create_list_item_end_m; create_list_item_start_m]
       /\ returned (parse_line (lit "*item")
                      (with_state UNORDERED_LIST Parser_init))
          = Ok (concat (map (fun a => emitted a [] ++ nl) before)
                ++ lit "<li>" ++ nl ++ [] ++ nl).
Proof.
  split; [reflexivity|]. split; [right; left; reflexivity|].
  destruct (@list_item_start_drops_first_token (lit "*item")
              (with_state UNORDERED_LIST Parser_init) ASTERISK
              UNORDERED_LIST
              [create_list_item_end_m; create_list_item_start_m]
              eq_refl eq_refl (or_intror (or_introl eq_refl)))
    as [_ [H2 [before [Hb Hr]]]].
  split.
  - exact (H2 (with_tokens [lit "*item"]
                 (with_output (lit "</li>" ++ nl) Parser_init))
              (lit "*item") eq_refl).
  - exists before. split; [symmetry; exact Hb | exact Hr].
Defined.

(** C8: from [DEFAULT], a line whose first token starts with "*" runs the
    one action of its entry, [create_unordered_list_start]: the line's
    output is exactly ["<ul>\n"], with no [<li>] and nothing of the line's
    tokens, and the state becomes [UNORDERED_LIST]. *)
Theorem default_bullet_opens_list_only
        (line : str) (self : Parser) (cs : str) (rest : list str) :
  state self = DEFAULT ->
  split line = (asterisk :: cs) :: rest ->
  classify (split line) = Ok ASTERISK
  /\ dict_lookup key_eqb transitions (DEFAULT, ASTERISK)
     = Some (UNORDERED_LIST, Some [create_unordered_list_start_m])
  /\ returned (parse_line line self) = Ok (lit "<ul>" ++ nl)
  /\ state (after (parse_line line self)) = UNORDERED_LIST.
Proof.
  intros Hst Hs.
  assert (Hc : classify (split line) = Ok ASTERISK).
  { rewrite Hs, classify_cons. reflexivity. }
  split; [exact Hc|]. split; [reflexivity|].
  rewrite (@parse_line_hit line self ASTERISK UNORDERED_LIST
             [create_unordered_list_start_m] Hc)
    by (rewrite Hst; reflexivity).
  split; reflexivity.
Qed.

Lemma default_bullet_opens_list_only_witness :
  state (with_state DEFAULT Parser_init) = DEFAULT
  /\ split (lit "* first item") = (asterisk :: []) :: [lit "first"; lit "item"]
  /\ returned (parse_line (lit "* first item")
                 (with_state DEFAULT Parser_init))
     = Ok (lit "<ul>" ++ nl)
  /\ state (after (parse_line (lit "* first item")
                     (with_state DEFAULT Parser_init)))
     = UNORDERED_LIST.
Proof.
  split; [reflexivity|]. split; [reflexivity|].
  destruct (@default_bullet_opens_list_only (lit "* first item")
              (with_state DEFAULT Parser_init) []
              [lit "first"; lit "item"] eq_refl eq_refl)
    as [_ [_ H]].
  exact H.
Defined.

(** The state after a call: the next state of the entry when the lookup
    hits, the state before the call when it misses or when the classifier
    raised. *)
Lemma parse_line_state (line : str) (self : Parser) :
  state (after (parse_line line self))
  = match classify (split line) with
    | Ok signal =>
        match dict_lookup key_eqb transitions (state self, signal) with
        | Some (next, _) => next
        | None => state self
        end
    | Raise _ => state self
    end.
Proof.
  destruct (classify (split line)) as [signal|e] eqn:Hc.
  - destruct (dict_lookup key_eqb transitions (state self, signal))
      as [[next [actions|]]|] eqn:Hl.
    + rewrite (parse_line_hit _ _ Hc Hl). reflexivity.
    + rewrite (parse_line_hit_no_actions _ _ Hc Hl eq_refl). reflexivity.
    + rewrite (parse_line_miss _ _ Hc Hl). reflexivity.
  - rewrite (parse_line_raise _ self Hc). reflexivity.
Qed.

Lemma parse_line_keeps_not (bad : State) (line : str) (self : Parser) :
  bad = HEADING \/ bad = INITIAL ->
  state self <> bad -> state (after (parse_line line self)) <> bad.
Proof.
  intros Hbad Hst. rewrite parse_line_state.
  destruct (classify (split line)) as [signal|e]; [|exact Hst].
  destruct (dict_lookup key_eqb transitions (state self, signal))
    as [[next actions]|] eqn:Hl; [|exact Hst].
  destruct (table_next_state _ _ Hl) as [H1 H2].
  destruct Hbad as [-> | ->]; assumption.
Qed.

Lemma states_after_keep_not (bad : State) (lines : list str)
      (self : Parser) :
  bad = HEADING \/ bad = INITIAL ->
  state self <> bad ->
  Forall (fun s => s <> bad) (states_after lines self).
Proof.
  intros Hbad. revert self.
  induction lines as [|line lines IH]; intros self Hst; cbn [states_after].
  - constructor.
  - pose proof (@parse_line_keeps_not bad line self Hbad Hst) as Hst'.
    constructor; [exact Hst' | exact (IH _ Hst')].
Qed.

(** The states of a run: [INITIAL] for a while, then never again. *)
Lemma states_after_initial_prefix (lines : list str) (self : Parser) :
  exists k later,
    states_after lines self = repeat INITIAL k ++ later
    /\ Forall (fun s => s <> INITIAL) later.
Proof.
  revert self. induction lines as [|line lines IH]; intros self.
  - exists 0, []. split; [reflexivity|constructor].
  - cbn [states_after].
    destruct (State_eq_dec (state (after (parse_line line self))) INITIAL)
      as [E|E].
    + destruct (IH (after (parse_line line self))) as [k [later [Hk Hl]]].
      exists (S k), later. rewrite E, Hk. split; [reflexivity|exact Hl].
    + exists 0, (state (after (parse_line line self))
                 :: states_after lines (after (parse_line line self))).
      split; [reflexivity|].
      constructor; [exact E|].
      apply states_after_keep_not; [right; reflexivity | exact E].
Qed.

(** The states listed by [states_after] are those of the successive
    parsers of [parse_lines]. *)
Lemma states_after_snoc (lines : list str) (line : str) (self : Parser) :
  states_after (lines ++ [line]) self
  = states_after lines self
    ++ [state (after (parse_line line (parse_lines lines self)))].
Proof.
  revert self. induction lines as [|l lines IH]; intros self.
  - reflexivity.
  - cbn [app states_after]. rewrite IH. reflexivity.
Qed.

(** C9: in any run of [parse_line] calls on a new parser, the state after a
    call is never [HEADING]; a call sets the state to the next state of the
    entry it looked up and otherwise (no entry, or the classifier raised)
    leaves it as it was; and the states after the calls are [INITIAL] for
    some calls, then never [INITIAL] again. *)
Theorem state_invariants (lines : list str) (line : str) :
  let self := parse_lines lines Parser_init in
  let self' := after (parse_line line self) in
  Forall (fun s => s <> HEADING) (states_after (lines ++ [line]) Parser_init)
  /\ last (states_after (lines ++ [line]) Parser_init) INITIAL = state self'
  /\ state self'
     = match classify (split line) with
       | Ok signal =>
           match dict_lookup key_eqb transitions (state self, signal) with
           | Some (next, _) => next
           | None => state self
           end
       | Raise _ => state self
       end
  /\ exists k later,
       states_after (lines ++ [line]) Parser_init
       = repeat INITIAL k ++ later
       /\ Forall (fun s => s <> INITIAL) later.
Proof.
  cbv zeta. split.
  { apply states_after_keep_not; [left; reflexivity | discriminate]. }
  split; [rewrite states_after_snoc; apply last_last|].
  split; [apply parse_line_state | apply states_after_initial_prefix].
Qed.

(** The other entries under [ASTERISK] and [LIST_NUMBER] all have an action
    list, and neither [create_heading] nor [create_paragraph_start] is in
    it. *)
Lemma table_list_entries (s next : State) (signal : Transition)
      (actions : option (list Action)) :
  signal = ASTERISK \/ signal = LIST_NUMBER ->
  dict_lookup key_eqb transitions (s, signal) = Some (next, actions) ->
  (s, signal) <> (INITIAL, ASTERISK) ->
  exists l, actions = Some l
            /\ ~ In create_heading_m l
            /\ ~ In create_paragraph_start_m l.
Proof.
  intros Hsig H Hne.
  table_cases s signal H; try (exfalso; intuition congruence);
    eexists; (split; [reflexivity|]); cbn; intuition discriminate.
Qed.

Lemma emitted_ignores_first_token (a : Action) (m1 m2 : str)
      (rest : list str) :
  a <> create_heading_m -> a <> create_paragraph_start_m ->
  emitted a (m1 :: rest) = emitted a (m2 :: rest).
Proof. intros H1 H2. destruct a; try reflexivity; congruence. Qed.

(** C10: from [INITIAL], a line whose first token starts with "*" returns
    all its tokens, the marker token first, joined by single spaces and
    followed by one newline, and the state becomes [UNORDERED_LIST].  In
    every other entry under [ASTERISK] or [LIST_NUMBER], two lines that
    differ in their first token only return the same text: the marker
    token is not part of the output there. *)
Theorem initial_bullet_echoes_marker
        (line : str) (self : Parser) (cs : str) (rest : list str) :
  state self = INITIAL ->
  split line = (asterisk :: cs) :: rest ->
  returned (parse_line line self)
  = Ok (join space ((asterisk :: cs) :: rest) ++ nl)
  /\ state (after (parse_line line self)) = UNORDERED_LIST
  /\ forall (other : Parser) (signal : Transition) (line1 line2 : str)
            (marker1 marker2 : str) (items : list str),
       (signal = ASTERISK \/ signal = LIST_NUMBER) ->
       listed (state other) signal = true ->
       (state other, signal) <> (INITIAL, ASTERISK) ->
       split line1 = marker1 :: items -> classify (split line1) = Ok signal ->
       split line2 = marker2 :: items -> classify (split line2) = Ok signal ->
       returned (parse_line line1 other) = returned (parse_line line2 other).
Proof.
  intros Hst Hs.
  assert (Hc : classify (split line) = Ok ASTERISK).
  { rewrite Hs, classify_cons. reflexivity. }
  rewrite (@parse_line_hit_no_actions line self ASTERISK UNORDERED_LIST
             None Hc) by (rewrite ?Hst; reflexivity).
  rewrite Hs. split; [reflexivity|]. split; [reflexivity|].
  intros other signal line1 line2 m1 m2 items Hsig Hl Hne Hs1 Hc1 Hs2 Hc2.
  unfold listed in Hl.
  destruct (dict_lookup key_eqb transitions (state other, signal))
    as [[next actions]|] eqn:E; [|discriminate].
  destruct (table_list_entries Hsig E Hne) as [l [-> [Hh Hp]]].
  rewrite (parse_line_hit _ _ Hc1 E), (parse_line_hit _ _ Hc2 E).
  unfold returned, fst. rewrite Hs1, Hs2. do 2 f_equal.
  apply map_ext_in. intros a Ha. f_equal.
  apply emitted_ignores_first_token; intros ->; contradiction.
Qed.

Lemma initial_bullet_echoes_marker_witness :
  state Parser_init = INITIAL
  /\ split (lit "* first item") = (asterisk :: []) :: [lit "first"; lit "item"]
  /\ returned (parse_line (lit "* first item") Parser_init)
     = Ok (lit "* first item" ++ nl)
  /\ state (after (parse_line (lit "* first item") Parser_init))
     = UNORDERED_LIST
  /\ returned (parse_line (lit "* item") (with_state PARAGRAPH Parser_init))
     = returned (parse_line (lit "*other item")
                   (with_state PARAGRAPH Parser_init)).
Proof.
  split; [reflexivity|]. split; [reflexivity|].
  destruct (@initial_bullet_echoes_marker (lit "* first item") Parser_init []
              [lit "first"; lit "item"] eq_refl eq_refl)
    as [H1 [H2 H3]].
  split; [exact H1|]. split; [exact H2|].
  apply (H3 (with_state PARAGRAPH Parser_init) ASTERISK
            (lit "* item") (lit "*other item")
            (lit "*") (lit "*other") [lit "item"]
            (or_introl eq_refl) eq_refl).
  - discriminate.
  - reflexivity.
  - reflexivity.
  - reflexivity.
  - reflexivity.
Defined.

(* ================================================================== *)
(** ** Further properties of the code *)

(** *** One call, in full *)

Lemma with_state_same (self : Parser) : with_state (state self) self = self.
Proof. destruct self; reflexivity. Qed.

(** A call whose classifier returned: the text and the object after. *)
Lemma parse_line_ok (line : str) (self : Parser) (signal : Transition) :
  classify (split line) = Ok signal ->
  parse_line line self
  = (Ok (line_text (state self) (split line)),
     with_output (line_text (state self) (split line))
       (with_state (next_state (state self) (split line))
          (with_tokens (split line) self))).
Proof.
  intros Hc. unfold line_text, next_state, fired. rewrite Hc.
  destruct (dict_lookup key_eqb transitions (state self, signal))
    as [[next [actions|]]|] eqn:Hl.
  - rewrite (parse_line_hit _ _ Hc Hl). cbn [actions_of].
    pose proof (table_actions_truthy _ _ Hl) as Ht.
    destruct actions; [discriminate Ht | reflexivity].
  - rewrite (parse_line_hit_no_actions _ _ Hc Hl eq_refl). reflexivity.
  - rewrite (parse_line_miss _ _ Hc Hl). destruct self; reflexivity.
Qed.

Lemma classify_ok_iff (line : str) :
  lone_digit_head (split line) = false <->
  exists signal, classify (split line) = Ok signal.
Proof.
  split.
  - intros H. eexists. apply (classify_line_signal _ H).
  - intros [signal Hc].
    destruct (lone_digit_head (split line)) eqn:E; [|reflexivity].
    pose proof (proj2 (classify_raises_iff line IndexError)
                  (conj E eq_refl)) as Hr.
    congruence.
Qed.

(** X1: a call of [parse_line] raises exactly on the lines whose first
    token is one digit character alone with more tokens after it, and then
    what it raises is [IndexError]; the object is then left with an empty
    buffer, the tokens of the line and the state it had.  On every other
    line the call returns. *)
Theorem parse_line_raises_exactly (line : str) (self : Parser) :
  (forall e, returned (parse_line line self) = Raise e <->
             lone_digit_head (split line) = true /\ e = IndexError)
  /\ (lone_digit_head (split line) = true ->
      after (parse_line line self)
      = with_tokens (split line) (with_output [] self))
  /\ (lone_digit_head (split line) = false ->
      exists text, returned (parse_line line self) = Ok text).
Proof.
  split; [intros e; apply parse_line_raises_iff|]. split.
  - intros H.
    pose proof (proj2 (classify_raises_iff line IndexError) (conj H eq_refl))
      as Hc.
    rewrite (parse_line_raise _ self Hc). reflexivity.
  - intros H. apply classify_ok_iff in H. destruct H as [signal Hc].
    rewrite (parse_line_ok _ self Hc). eexists. reflexivity.
Qed.

(** X2: what a call returns and the state it leaves depend on the line
    through its tokens only, and on the object through its state only: the
    buffer and the tokens of earlier lines play no part.  After the call
    the tokens are those of the line, the buffer is the returned text, and
    the three boolean attributes are as they were. *)
Theorem parse_line_reads_state_and_tokens
        (line line' : str) (self self' : Parser) :
  state self = state self' ->
  split line = split line' ->
  returned (parse_line line self) = returned (parse_line line' self')
  /\ state (after (parse_line line self))
     = state (after (parse_line line' self'))
  /\ output (after (parse_line line self))
     = output (after (parse_line line' self'))
  /\ tokens (after (parse_line line self)) = split line
  /\ (forall text, returned (parse_line line self) = Ok text ->
                   output (after (parse_line line self)) = text)
  /\ is_previous_line_newline (after (parse_line line self))
     = is_previous_line_newline self
  /\ is_paragraph (after (parse_line line self)) = is_paragraph self
  /\ is_unordered_list (after (parse_line line self))
     = is_unordered_list self.
Proof.
  intros Hst Hs.
  destruct (classify (split line)) as [signal|e] eqn:Hc.
  - assert (Hc' : classify (split line') = Ok signal) by (rewrite <- Hs; exact Hc).
    rewrite (parse_line_ok _ self Hc), (parse_line_ok _ self' Hc').
    rewrite <- Hs, <- Hst. unfold returned, after, fst, snd.
    repeat split. intros text H. injection H as <-. reflexivity.
  - assert (Hc' : classify (split line') = Raise e) by (rewrite <- Hs; exact Hc).
    rewrite (parse_line_raise _ self Hc), (parse_line_raise _ self' Hc').
    unfold returned, after, fst, snd. cbn.
    repeat split; try assumption. discriminate.
Qed.

Lemma parse_line_reads_state_and_tokens_witness :
  state (with_output (lit "<p>") (with_state DEFAULT Parser_init))
  = state (with_tokens [lit "old"] (with_state DEFAULT Parser_init))
  /\ split (lit "# A  heading" ++ nl) = split (lit "  # A heading")
  /\ returned (parse_line (lit "# A  heading" ++ nl)
                 (with_output (lit "<p>") (with_state DEFAULT Parser_init)))
     = returned (parse_line (lit "  # A heading")
                   (with_tokens [lit "old"] (with_state DEFAULT Parser_init))).
Proof.
  split; [reflexivity|]. split; [reflexivity|].
  exact (proj1 (@parse_line_reads_state_and_tokens
                  (lit "# A  heading" ++ nl) (lit "  # A heading")
                  (with_output (lit "<p>") (with_state DEFAULT Parser_init))
                  (with_tokens [lit "old"] (with_state DEFAULT Parser_init))
                  eq_refl eq_refl)).
Defined.

(** *** The tokenizer *)

Lemma rev_cons_not_nil (c : char) (word : str) : rev (c :: word) <> [].
Proof.
  simpl. intros H. apply app_eq_nil in H. destruct H; discriminate.
Qed.

Lemma split_from_spaceless (s word : str) :
  spaceless word -> Forall spaceless (split_from word s).
Proof.
  revert word. induction s as [|c rest IH]; intros word Hw; simpl.
  - destruct word; constructor; [apply Forall_rev; exact Hw | constructor].
  - destruct (isspace c) eqn:E.
    + destruct word as [|w ws]; [apply IH; constructor|].
      constructor; [apply Forall_rev; exact Hw | apply IH; constructor].
    + apply IH. constructor; assumption.
Qed.

(** No token of [line.split()] holds a whitespace character. *)
Lemma split_spaceless (line : str) : Forall spaceless (split line).
Proof. apply split_from_spaceless. constructor. Qed.

Lemma split_from_blank (ws : str) :
  blank ws = true -> split_from [] ws = [].
Proof.
  induction ws as [|c ws IH]; [reflexivity|].
  cbn [blank forallb]. intros H. apply andb_true_iff in H.
  destruct H as [Hc Hws]. simpl. rewrite Hc. apply IH, Hws.
Qed.

(** Whitespace before the first word is skipped. *)
Lemma split_leading (ws line : str) :
  blank ws = true -> split (ws ++ line) = split line.
Proof.
  unfold split. induction ws as [|c ws IH]; [reflexivity|].
  cbn [blank forallb]. intros H. apply andb_true_iff in H.
  destruct H as [Hc Hws]. simpl. rewrite Hc. apply IH, Hws.
Qed.

Lemma split_from_trailing (line ws word : str) :
  blank ws = true -> split_from word (line ++ ws) = split_from word line.
Proof.
  intros Hws. revert word.
  induction line as [|c line IH]; intros word.
  - cbn [app]. destruct ws as [|w ws]; [reflexivity|].
    cbn [blank forallb] in Hws. apply andb_true_iff in Hws.
    destruct Hws as [Hw Hws]. simpl. rewrite Hw.
    rewrite (split_from_blank _ Hws). destruct word; reflexivity.
  - simpl. destruct (isspace c); [|apply IH].
    rewrite IH. reflexivity.
Qed.

(** A run of characters without whitespace goes into the current word. *)
Lemma split_from_word (token rest word : str) :
  spaceless token ->
  split_from word (token ++ rest) = split_from (rev token ++ word) rest.
Proof.
  revert word. induction token as [|c token IH]; intros word Ht.
  - reflexivity.
  - inversion Ht as [|? ? Hc Ht']; subst. simpl. rewrite Hc.
    rewrite (IH _ Ht'). rewrite <- app_assoc. reflexivity.
Qed.

(** Joining words by one space and splitting again gives the words back. *)
Lemma split_join (tokens : list str) :
  Forall (fun t => t <> []) tokens -> Forall spaceless tokens ->
  split (join space tokens) = tokens.
Proof.
  unfold split. induction tokens as [|t tokens IH]; intros Hne Hsp.
  - reflexivity.
  - inversion Hne as [|? ? Ht Hne']; subst.
    inversion Hsp as [|? ? Hst Hsp']; subst.
    destruct tokens as [|t' tokens].
    + cbn [join]. rewrite <- (app_nil_r t) at 1.
      rewrite (split_from_word _ _ Hst), app_nil_r. cbn [split_from].
      destruct (rev t) eqn:E.
      * apply (f_equal (@rev _)) in E. rewrite rev_involutive in E.
        contradiction.
      * rewrite <- E, rev_involutive. reflexivity.
    + change (join space (t :: t' :: tokens))
        with (t ++ space ++ join space (t' :: tokens)).
      rewrite (split_from_word _ _ Hst), app_nil_r.
      change (space ++ join space (t' :: tokens))
        with (32%N :: join space (t' :: tokens)).
      cbn [split_from]. change (isspace 32%N) with true. cbn iota.
      rewrite (IH Hne' Hsp').
      destruct (rev t) eqn:E.
      * apply (f_equal (@rev _)) in E. rewrite rev_involutive in E.
        contradiction.
      * rewrite <- E, rev_involutive. reflexivity.
Qed.

(** X3: whitespace around a line does not count.  With whitespace only
    (a line terminator, an indentation) before and after it, a line has the
    tokens it has without, and [parse_line] returns the same text and
    leaves the same object. *)
Theorem surrounding_whitespace_ignored
        (before line behind : str) (self : Parser) :
  blank before = true ->
  blank behind = true ->
  split (before ++ line ++ behind) = split line
  /\ parse_line (before ++ line ++ behind) self = parse_line line self.
Proof.
  intros Hb Ha.
  assert (Hs : split (before ++ line ++ behind) = split line).
  { rewrite (@split_leading before (line ++ behind) Hb).
    apply (@split_from_trailing line behind [] Ha). }
  split; [exact Hs|]. unfold parse_line. rewrite Hs. reflexivity.
Qed.

Lemma surrounding_whitespace_ignored_witness :
  blank (lit "   ") = true
  /\ blank (13%N :: nl) = true
  /\ parse_line (lit "   " ++ lit "## Title" ++ 13%N :: nl) Parser_init
     = parse_line (lit "## Title") Parser_init.
Proof.
  split; [reflexivity|]. split; [reflexivity|].
  exact (proj2 (@surrounding_whitespace_ignored (lit "   ") (lit "## Title")
                  (13%N :: nl) Parser_init eq_refl eq_refl)).
Defined.

(** X4: the continuation text of a line, its tokens joined by one space
    with a newline after, has the tokens of the line: tokenizing undoes the
    joining.  So a line and its continuation text are the same line to
    [parse_line], in every state. *)
Theorem continuation_text_same_line (line : str) (self : Parser) :
  split (join space (split line)) = split line
  /\ split (continuation (split line)) = split line
  /\ parse_line (continuation (split line)) self = parse_line line self.
Proof.
  assert (H1 : split (join space (split line)) = split line)
    by (apply split_join; [apply split_nonempty | apply split_spaceless]).
  assert (H2 : split (continuation (split line)) = split line).
  { unfold continuation, split.
    rewrite (@split_from_trailing _ nl [] eq_refl). exact H1. }
  split; [exact H1|]. split; [exact H2|].
  unfold parse_line. rewrite H2. reflexivity.
Qed.

Lemma split_from_nil_blank (s word : str) :
  split_from word s = [] -> word = [] /\ blank s = true.
Proof.
  revert word. induction s as [|c rest IH]; intros word; simpl.
  - destruct word; [auto | discriminate].
  - destruct (isspace c).
    + destruct word; [|discriminate]. intros H.
      destruct (IH _ H) as [_ Hb]. auto.
    + intros H. destruct (IH _ H) as [Hw _]. discriminate.
Qed.

(** X5: a line of whitespace only (the empty line, a bare line
    terminator) is what the classifier calls [EMPTY_LINE], and no other
    line is.  Such a line closes the open block: ["</p>\n"] in a paragraph,
    ["</li>\n</ul>\n"] and ["</li>\n</ol>\n"] in the lists, with
    [DEFAULT] as the state after; in [INITIAL] and [DEFAULT] it returns a
    bare newline and the state stays, so blank lines at the head of a
    document leave the parser in [INITIAL]. *)
Theorem blank_line_closes_block (line : str) (self : Parser) :
  blank line = true ->
  (forall l, classify (split l) = Ok EMPTY_LINE <-> blank l = true)
  /\ returned (parse_line line self)
     = Ok (match state self with
           | PARAGRAPH => lit "</p>" ++ nl
           | UNORDERED_LIST => lit "</li>" ++ nl ++ lit "</ul>" ++ nl
           | ORDERED_LIST => lit "</li>" ++ nl ++ lit "</ol>" ++ nl
           | INITIAL | DEFAULT | HEADING => nl
           end)
  /\ state (after (parse_line line self))
     = match state self with
       | INITIAL => INITIAL
       | HEADING => HEADING
       | DEFAULT | PARAGRAPH | UNORDERED_LIST | ORDERED_LIST => DEFAULT
       end.
Proof.
  intros Hb. split.
  { intros l. split.
    - intros Hc. destruct (split l) as [|t rest] eqn:E.
      + apply (split_from_nil_blank _ _ E).
      + exfalso. pose proof (split_nonempty l) as Hne. rewrite E in Hne.
        inversion Hne as [|? ? Ht _]; subst.
        destruct t as [|c cs]; [congruence|].
        rewrite classify_cons in Hc.
        destruct (c =? pound)%N; [discriminate|].
        destruct (c =? asterisk)%N; [discriminate|].
        destruct (isdigit c); [|discriminate].
        destruct rest; [discriminate|].
        destruct cs as [|d cs]; [discriminate|].
        destruct (d =? period)%N; discriminate.
    - intros Hl. unfold split. rewrite (split_from_blank _ Hl).
      reflexivity. }
  assert (Hs : split line = []) by (apply split_from_blank, Hb).
  assert (Hc : classify (split line) = Ok EMPTY_LINE)
    by (rewrite Hs; reflexivity).
  rewrite (parse_line_ok _ self Hc), Hs. unfold returned, after, fst, snd.
  cbn [state with_output with_state].
  destruct (state self); split; reflexivity.
Qed.

Lemma blank_line_closes_block_witness :
  blank (lit "  " ++ nl) = true
  /\ returned (parse_line (lit "  " ++ nl)
                 (with_state ORDERED_LIST Parser_init))
     = Ok (lit "</li>" ++ nl ++ lit "</ol>" ++ nl)
  /\ state (after (parse_line (lit "  " ++ nl)
                     (with_state ORDERED_LIST Parser_init)))
     = DEFAULT.
Proof.
  split; [reflexivity|].
  exact (proj2 (@blank_line_closes_block (lit "  " ++ nl)
                  (with_state ORDERED_LIST Parser_init) eq_refl)).
Defined.

(** *** The shape of the text of a line *)

Lemma newlines_spaceless (token : str) : spaceless token -> newlines token = 0.
Proof.
  induction 1 as [|c token Hc _ IH]; [reflexivity|].
  unfold newlines. rewrite count_occ_cons_neq; [exact IH|].
  intros ->. discriminate Hc.
Qed.

Lemma newlines_join (tokens : list str) :
  Forall spaceless tokens -> newlines (join space tokens) = 0.
Proof.
  induction 1 as [|t tokens Ht Hts IH]; [reflexivity|].
  destruct tokens as [|t' tokens]; [apply newlines_spaceless, Ht|].
  change (join space (t :: t' :: tokens))
    with (t ++ space ++ join space (t' :: tokens)).
  rewrite !newlines_app, IH, (newlines_spaceless Ht). reflexivity.
Qed.

Lemma spaceless_skipn (n : nat) (token : str) :
  spaceless token -> spaceless (skipn n token).
Proof.
  revert token. induction n as [|n IH]; intros token H; [exact H|].
  destruct H; [constructor | apply IH; assumption].
Qed.

Lemma newlines_format_int (n : nat) : n <= 6 -> newlines (format_int n) = 0.
Proof.
  intros H. destruct n as [|[|[|[|[|[|[|n]]]]]]]; try reflexivity. lia.
Qed.

(** The tokens of a line bring no newline into the text of an action. *)
Lemma emitted_newlines (a : Action) (tokens : list str) :
  Forall spaceless tokens -> newlines (emitted a tokens) = own_newlines a.
Proof.
  intros H.
  assert (Htl : Forall spaceless (tl tokens))
    by (destruct H; [constructor | assumption]).
  assert (Hhd : spaceless (hd [] tokens))
    by (destruct H; [constructor | assumption]).
  destruct a; try reflexivity.
  - unfold emitted, heading_markup. rewrite !newlines_app.
    rewrite !newlines_format_int by apply Nat.le_min_r.
    rewrite newlines_join
      by (constructor; [apply spaceless_skipn, Hhd | exact Htl]).
    reflexivity.
  - unfold emitted. rewrite !newlines_app, (newlines_join H). reflexivity.
  - unfold emitted. rewrite !newlines_app, (newlines_join Htl). reflexivity.
Qed.

Lemma table_output_lines (s next : State) (signal : Transition)
      (transition_actions : option (list Action)) :
  dict_lookup key_eqb transitions (s, signal)
  = Some (next, transition_actions) ->
  length (actions_of transition_actions)
  + list_sum (map own_newlines (actions_of transition_actions)) <= 5.
Proof. intros H. table_cases s signal H; cbn; lia. Qed.

Lemma concat_ends_with_newline (f : Action -> str) (a : Action)
      (actions : list Action) :
  exists body, concat (map (fun x => f x ++ nl) (a :: actions)) = body ++ nl.
Proof.
  revert a. induction actions as [|b actions IH]; intros a.
  - eexists. cbn [map concat]. rewrite app_nil_r. reflexivity.
  - destruct (IH b) as [body Hb]. exists ((f a ++ nl) ++ body).
    change (concat (map (fun x => f x ++ nl) (a :: b :: actions)))
      with ((f a ++ nl) ++ concat (map (fun x => f x ++ nl) (b :: actions))).
    rewrite Hb, app_assoc. reflexivity.
Qed.

(** X6: the text a call returns ends with a newline, and the newlines in
    it are those of the driver and of the actions alone, since no token
    holds one: one for a line without actions, and for a line with actions
    one per action plus those inside the actions' own markup (two for a
    heading, one each for a paragraph start and a list item start).  A line
    of input gives between one and five lines of output. *)
Theorem line_output_shape (line : str) (self : Parser) (text : str) :
  returned (parse_line line self) = Ok text ->
  (exists body, text = body ++ nl)
  /\ newlines text
     = match fired (state self) (split line) with
       | [] => 1
       | actions => length actions + list_sum (map own_newlines actions)
       end
  /\ 1 <= newlines text <= 5.
Proof.
  intros Hr.
  destruct (classify (split line)) as [signal|e] eqn:Hc;
    [|rewrite (parse_line_raise _ self Hc) in Hr; discriminate].
  rewrite (parse_line_ok _ self Hc) in Hr. injection Hr as <-.
  assert (Hn : newlines (line_text (state self) (split line))
               = match fired (state self) (split line) with
                 | [] => 1
                 | actions =>
                     length actions + list_sum (map own_newlines actions)
                 end).
  { unfold line_text.
    destruct (fired (state self) (split line)) as [|a actions].
    - unfold continuation.
      rewrite newlines_app, (newlines_join (split_spaceless line)).
      reflexivity.
    - rewrite newlines_per_action. f_equal. f_equal.
      apply map_ext. intros b. apply emitted_newlines, split_spaceless. }
  split; [|split; [exact Hn|]].
  - clear Hn. unfold line_text.
    destruct (fired (state self) (split line)) as [|a actions].
    + eexists. reflexivity.
    + apply concat_ends_with_newline.
  - rewrite Hn. unfold fired. rewrite Hc.
    destruct (dict_lookup key_eqb transitions (state self, signal))
      as [[next transition_actions]|] eqn:Hl; [|lia].
    pose proof (table_output_lines _ _ Hl) as Hle.
    destruct (actions_of transition_actions) as [|a actions]; [lia|].
    cbn [length] in *. lia.
Qed.

Lemma line_output_shape_witness :
  returned (parse_line (lit "## A title") (with_state PARAGRAPH Parser_init))
  = Ok (lit "</p>" ++ nl ++ lit "<h2>" ++ nl ++ lit " A title" ++ nl
        ++ lit "</h2>" ++ nl)
  /\ newlines (lit "</p>" ++ nl ++ lit "<h2>" ++ nl ++ lit " A title" ++ nl
               ++ lit "</h2>" ++ nl)
     = match fired PARAGRAPH (split (lit "## A title")) with
       | [] => 1
       | actions => length actions + list_sum (map own_newlines actions)
       end.
Proof.
  split; [reflexivity|].
  exact (proj1 (proj2 (@line_output_shape (lit "## A title")
                         (with_state PARAGRAPH Parser_init) _ eq_refl))).
Defined.

(** *** The loop over the lines of a document *)

Lemma parse_to_html_loop_returns (lines : list str) (parser : Parser)
      (printed : str) :
  Forall (fun l => lone_digit_head (split l) = false) lines ->
  parse_to_html_loop lines parser printed
  = (printed ++ buffered_in_run lines parser, None).
Proof.
  intros H. revert parser printed.
  induction H as [|line lines Hl _ IH]; intros parser printed.
  - cbn. rewrite app_nil_r. reflexivity.
  - apply classify_ok_iff in Hl. destruct Hl as [signal Hc].
    cbn [parse_to_html_loop buffered_in_run].
    rewrite (parse_line_ok _ parser Hc). rewrite IH.
    unfold after, snd. cbn [output with_output].
    rewrite app_assoc. reflexivity.
Qed.

Lemma parse_to_html_loop_stops (before : list str) (bad : str)
      (rest : list str) (parser : Parser) (printed : str) :
  Forall (fun l => lone_digit_head (split l) = false) before ->
  lone_digit_head (split bad) = true ->
  parse_to_html_loop (before ++ bad :: rest) parser printed
  = (printed ++ buffered_in_run before parser, Some IndexError).
Proof.
  intros H Hbad. revert parser printed.
  induction H as [|line lines Hl _ IH]; intros parser printed.
  - pose proof (proj2 (classify_raises_iff bad IndexError)
                  (conj Hbad eq_refl)) as Hc.
    cbn [app parse_to_html_loop buffered_in_run].
    rewrite (parse_line_raise _ parser Hc), app_nil_r. reflexivity.
  - apply classify_ok_iff in Hl. destruct Hl as [signal Hc].
    cbn [app parse_to_html_loop buffered_in_run].
    rewrite (parse_line_ok _ parser Hc). rewrite IH.
    unfold after, snd. cbn [output with_output].
    rewrite app_assoc. reflexivity.
Qed.

Lemma parse_to_html_loop_none_iff (lines : list str) (parser : Parser)
      (printed : str) :
  snd (parse_to_html_loop lines parser printed) = None <->
  Forall (fun l => lone_digit_head (split l) = false) lines.
Proof.
  revert parser printed.
  induction lines as [|line lines IH]; intros parser printed.
  - split; [constructor | reflexivity].
  - cbn [parse_to_html_loop].
    destruct (classify (split line)) as [signal|e] eqn:Hc.
    + rewrite (parse_line_ok _ parser Hc). rewrite IH.
      assert (Hl : lone_digit_head (split line) = false)
        by (apply classify_ok_iff; eexists; exact Hc).
      split; [constructor; assumption|].
      intros H. inversion H; assumption.
    + rewrite (parse_line_raise _ parser Hc). cbn [snd].
      split; [discriminate|]. intros H. inversion H as [|? ? Hl _]; subst.
      apply classify_ok_iff in Hl. destruct Hl as [signal Hs]. congruence.
Qed.

(** X7: [parse_to_html] runs to the end of the document exactly when no
    line has a lone digit character as its first token with more tokens
    after it; it has then printed the texts of all the calls, in order.
    Otherwise it stops at the first such line with [IndexError], having
    printed the texts of the lines before it and nothing of that line or of
    the lines after. *)
Theorem parse_to_html_stops_at_first_lone_digit
        (before : list str) (bad : str) (rest : list str) :
  Forall (fun l => lone_digit_head (split l) = false) before ->
  parse_to_html before = (buffered_in_run before Parser_init, None)
  /\ (lone_digit_head (split bad) = true ->
      parse_to_html (before ++ bad :: rest)
      = (buffered_in_run before Parser_init, Some IndexError))
  /\ (forall lines,
        snd (parse_to_html lines) = None <->
        Forall (fun l => lone_digit_head (split l) = false) lines).
Proof.
  intros H. unfold parse_to_html. split; [|split].
  - apply (@parse_to_html_loop_returns before Parser_init [] H).
  - intros Hbad.
    apply (@parse_to_html_loop_stops before bad rest Parser_init [] H Hbad).
  - intros lines. apply parse_to_html_loop_none_iff.
Qed.

Lemma parse_to_html_stops_at_first_lone_digit_witness :
  Forall (fun l => lone_digit_head (split l) = false)
    [lit "# Shopping"; lit "* eggs"]
  /\ lone_digit_head (split (lit "2 apples")) = true
  /\ parse_to_html [lit "# Shopping"; lit "* eggs"; lit "2 apples"; lit "end"]
     = (buffered_in_run [lit "# Shopping"; lit "* eggs"] Parser_init,
        Some IndexError).
Proof.
  assert (H : Forall (fun l => lone_digit_head (split l) = false)
                [lit "# Shopping"; lit "* eggs"])
    by (repeat constructor).
  split; [exact H|]. split; [reflexivity|].
  exact (proj1 (proj2 (@parse_to_html_stops_at_first_lone_digit
                         [lit "# Shopping"; lit "* eggs"] (lit "2 apples")
                         [lit "end"] H))
           eq_refl).
Defined.

(** *** Blocks opened and closed *)

Lemma count_actions_app (f : Action -> bool) (l1 l2 : list Action) :
  count_actions f (l1 ++ l2) = count_actions f l1 + count_actions f l2.
Proof. unfold count_actions. rewrite filter_app, length_app. reflexivity. Qed.

(** One call: what it opens and closes of a block accounts for the parser
    entering or leaving it. *)
Lemma fired_balance (block s : State) (tokens : list str) :
  block = PARAGRAPH \/ block = UNORDERED_LIST \/ block = ORDERED_LIST ->
  s <> INITIAL \/ block = ORDERED_LIST ->
  count_actions (opens block) (fired s tokens) + inside block s
  = count_actions (closes block) (fired s tokens)
    + inside block (next_state s tokens).
Proof.
  intros Hb Hs. unfold fired, next_state.
  destruct (classify tokens) as [signal|e]; [|reflexivity].
  destruct Hb as [ -> | [ -> | -> ] ]; destruct s, signal;
    try reflexivity;
    exfalso; destruct Hs as [Hs|Hs]; congruence.
Qed.

Lemma fired_in_run_balance (block : State) (lines : list str)
      (self : Parser) :
  block = PARAGRAPH \/ block = UNORDERED_LIST \/ block = ORDERED_LIST ->
  state self <> INITIAL \/ block = ORDERED_LIST ->
  count_actions (opens block) (fired_in_run lines self)
  + inside block (state self)
  = count_actions (closes block) (fired_in_run lines self)
    + inside block (state (parse_lines lines self)).
Proof.
  intros Hb. revert self.
  induction lines as [|line lines IH]; intros self Hs.
  - reflexivity.
  - cbn [fired_in_run parse_lines fold_left].
    fold (parse_lines lines (after (parse_line line self))).
    rewrite !count_actions_app.
    pose proof (@fired_balance block (state self) (split line) Hb Hs) as H1.
    assert (Hs' : state (after (parse_line line self)) <> INITIAL
                  \/ block = ORDERED_LIST).
    { destruct Hs as [Hs|Hs]; [left|right; exact Hs].
      apply parse_line_keeps_not; [right; reflexivity | exact Hs]. }
    pose proof (IH _ Hs') as H2.
    rewrite parse_line_state in H2 at 1.
    fold (next_state (state self) (split line)) in H2.
    lia.
Qed.

(** X8: the block tags are balanced against the state.  Over any run of
    calls on a parser that is not in [INITIAL], and for each of the three
    blocks (paragraph, unordered list, ordered list), the block's start
    action has fired as many times as its end action, plus one when the
    run entered the block and is still in it, minus one when it began in
    the block and left it.  For the ordered list this holds from [INITIAL]
    too.  The actions counted are those whose texts make up the returned
    text.  From [INITIAL] the paragraph is not balanced: the document
    ["Hello"], [""] closes a paragraph that nothing opened. *)
Theorem block_tags_balanced
        (block : State) (lines : list str) (self : Parser) :
  block = PARAGRAPH \/ block = UNORDERED_LIST \/ block = ORDERED_LIST ->
  state self <> INITIAL \/ block = ORDERED_LIST ->
  count_actions (opens block) (fired_in_run lines self)
  + inside block (state self)
  = count_actions (closes block) (fired_in_run lines self)
    + inside block (state (parse_lines lines self))
  /\ (forall line p,
        fired (state p) (split line) = []
        \/ returned (parse_line line p)
           = Ok (concat (map (fun a => emitted a (split line) ++ nl)
                           (fired (state p) (split line)))))
  /\ count_actions (opens PARAGRAPH)
       (fired_in_run [lit "Hello"; lit ""] Parser_init) = 0
  /\ count_actions (closes PARAGRAPH)
       (fired_in_run [lit "Hello"; lit ""] Parser_init) = 1.
Proof.
  intros Hb Hs. split; [apply fired_in_run_balance; assumption|].
  split; [|split; reflexivity].
  intros line p.
  destruct (fired (state p) (split line)) as [|a actions] eqn:Hf;
    [left; reflexivity | right].
  destruct (classify (split line)) as [signal|e] eqn:Hc;
    [|unfold fired in Hf; rewrite Hc in Hf; discriminate].
  rewrite (parse_line_ok _ p Hc). unfold line_text. rewrite Hf. reflexivity.
Qed.

Lemma block_tags_balanced_witness :
  state (with_state DEFAULT Parser_init) <> INITIAL
  /\ count_actions (opens UNORDERED_LIST)
       (fired_in_run [lit "* a"; lit "* b"; lit "1. c"; lit "* d"]
          (with_state DEFAULT Parser_init))
     + inside UNORDERED_LIST DEFAULT
     = count_actions (closes UNORDERED_LIST)
         (fired_in_run [lit "* a"; lit "* b"; lit "1. c"; lit "* d"]
            (with_state DEFAULT Parser_init))
       + inside UNORDERED_LIST
           (state (parse_lines [lit "* a"; lit "* b"; lit "1. c"; lit "* d"]
                     (with_state DEFAULT Parser_init))).
Proof.
  assert (H : state (with_state DEFAULT Parser_init) <> INITIAL)
    by discriminate.
  split; [exact H|].
  exact (proj1 (@block_tags_balanced UNORDERED_LIST
                  [lit "* a"; lit "* b"; lit "1. c"; lit "* d"]
                  (with_state DEFAULT Parser_init)
                  (or_intror (or_introl eq_refl)) (or_introl H))).
Defined.

(** *** The actions and the table *)

(** X9: an action called on its own never touches the state, the tokens
    or the text already in the buffer: it appends its text and returns.
    The one exception is [create_heading] on a parser without tokens, which
    raises [IndexError] on [self.tokens[0]] and leaves the object as it
    was. *)
Theorem actions_append_only (a : Action) (self : Parser) :
  (a = create_heading_m /\ tokens self = [] ->
   call a self = (Raise IndexError, self))
  /\ (a <> create_heading_m \/ tokens self <> [] ->
      call a self
      = (Ok tt, with_output (output self ++ emitted a (tokens self)) self)).
Proof.
  split.
  - intros [-> Ht]. apply create_heading_no_token, Ht.
  - intros H. apply call_emits. intros ->.
    destruct H as [H|H]; [congruence | exact H].
Qed.

Lemma key_eqb_eq (k1 k2 : State * Transition) :
  key_eqb k1 k2 = true <-> k1 = k2.
Proof.
  destruct k1 as [s1 t1], k2 as [s2 t2]. unfold key_eqb. cbn [fst snd].
  destruct (State_eq_dec s1 s2), (Transition_eq_dec t1 t2); cbn;
    split; congruence.
Qed.

(** Looking up a dict literal without repeated keys: the value is the one
    written beside the key. *)
Lemma dict_lookup_In (V : Type) (d : list ((State * Transition) * V))
      (k : State * Transition) (v : V) :
  NoDup (map fst d) ->
  (dict_lookup key_eqb d k = Some v <-> In (k, v) d).
Proof.
  induction d as [|[k' v'] d IH]; intros Hd.
  - split; [discriminate | contradiction].
  - inversion Hd as [|? ? Hnot Hd']; subst. cbn [dict_lookup In].
    destruct (key_eqb k' k) eqn:E.
    + apply key_eqb_eq in E. subst k'. split.
      * intros H. injection H as <-. left. reflexivity.
      * intros [H|H]; [congruence|].
        exfalso. apply Hnot. apply (in_map fst) in H. exact H.
    + rewrite (IH Hd'). split; [auto|].
      intros [H|H]; [|exact H].
      injection H as <- <-.
      assert (key_eqb k' k' = true) by (apply key_eqb_eq; reflexivity).
      congruence.
Qed.

(** X10: the transition table has eighteen entries with eighteen different
    keys, so a lookup finds a value exactly when the pair is written in the
    literal with that value, in whatever order.  [State.HEADING] and
    [Transition.NONE] are dead: neither occurs in a key, no entry leads to
    [HEADING], and the classifier never yields [NONE].  A value is either
    [None] or a list of one to four actions, never an empty list. *)
Theorem transition_table_shape :
  length transitions = 18
  /\ NoDup (map fst transitions)
  /\ (forall k v,
        dict_lookup key_eqb transitions k = Some v <-> In (k, v) transitions)
  /\ (forall s signal,
        listed s signal = true -> s <> HEADING /\ signal <> NONE)
  /\ (forall s signal next transition_actions,
        dict_lookup key_eqb transitions (s, signal)
        = Some (next, transition_actions) ->
        next <> HEADING
        /\ (transition_actions = None
            \/ exists actions, transition_actions = Some actions
                               /\ 1 <= length actions <= 4))
  /\ (forall tokens, classify tokens <> Ok NONE).
Proof.
  split; [reflexivity|].
  split; [apply transitions_keys_NoDup|].
  split; [intros k v; apply dict_lookup_In, transitions_keys_NoDup|].
  split.
  { intros s signal H. unfold listed in H.
    destruct s, signal; cbn in H; try discriminate H;
      split; discriminate. }
  split; [|apply classify_not_NONE].
  intros s signal next transition_actions H.
  table_cases s signal H; (split; [discriminate|]);
    try (left; reflexivity);
    right; eexists; (split; [reflexivity|]); cbn; lia.
Qed.
